(** * PyGnuplot: the figure registry and the command dispatch

    A shallow embedding of [PyGnuplot.py].  Python objects live in a heap
    and are referred to by address, so that two references to one
    [_GnuPlot] object are visibly the same object.  The module-level
    functions run in a small state-and-exception monad over the world the
    module can change: the heap of [_GnuPlot] objects (each owning one
    gnuplot process), the global registry [fl], and the files on disk.

    What the operating system may do on its own (a gnuplot executable that
    is missing, a pipe that breaks, a disk that is full) is outside the
    model: [Popen], [open] and [print] succeed. *)

From stdpp Require Import gmap strings list fin_maps pretty.

(** ** Text *)

Definition newline : string := String (Ascii.ascii_of_nat 10) "".

(** [str(x)] on a Python [int]. *)
Definition str_int (z : Z) : string := pretty z.

(** [str(x)] on an optional [int]: [None] prints as its name. *)
Definition str_opt_int (o : option Z) : string :=
  match o with
  | None => "None"
  | Some z => str_int z
  end.

(** [sep.join(items)]. *)
Fixpoint join (sep : string) (items : list string) : string :=
  match items with
  | [] => ""
  | [x] => x
  | x :: rest => x +:+ sep +:+ join sep rest
  end.

(** The text that [print] of the unpacked [items] sends to its file: the
    items separated by one space, ended by one newline. *)
Definition print_text (items : list string) : string :=
  join " " items +:+ newline.

(** The lines of a text, as [f.readlines()] gives them without their
    newline: a last line without newline counts, an empty rest does not. *)
Fixpoint lines_from (cur : string) (text : string) : list string :=
  match text with
  | EmptyString => if decide (cur = "") then [] else [cur]
  | String ch rest =>
      if decide (ch = Ascii.ascii_of_nat 10)
      then cur :: lines_from "" rest
      else lines_from (cur +:+ String ch "") rest
  end.

Definition lines (text : string) : list string := lines_from "" text.

(** ** Objects *)

Definition DEFAULT_TERM : string := "x11".

(** The [Popen] object of one gnuplot process.  Only its [stdin] pipe is
    used; the pipe is recorded as the list of texts printed to it, one
    entry per [print] call, oldest first. *)
Record Popen := mkPopen { stdin : list string }.

(** The bytes that have gone down a pipe. *)
Definition pipe_bytes (pr : Popen) : string := foldr String.append "" (stdin pr).

Record _GnuPlot := mk_GnuPlot { term : string; proc : Popen }.

(** An address in the heap of [_GnuPlot] objects. *)
Definition addr := nat.

Record _FigureList := mk_FigureList {
  instances : gmap Z addr;
  current_idx : Z;
  current_fig : addr
}.

(** The world: the [_GnuPlot] objects constructed so far (the object at
    address [a] is [heap !! a]; every object owns the process it started,
    so the length of the heap is the number of gnuplot processes started),
    the module global [fl], and the files on disk by name. *)
Record World := mkWorld {
  heap : list _GnuPlot;
  fl : _FigureList;
  files : gmap string string
}.

Definition set_heap (h : list _GnuPlot) (w : World) : World :=
  mkWorld h (fl w) (files w).
Definition set_fl (f : _FigureList) (w : World) : World :=
  mkWorld (heap w) f (files w).
Definition set_files (fs : gmap string string) (w : World) : World :=
  mkWorld (heap w) (fl w) fs.

(** ** The monad *)

(** [ValueError] is what [max] raises on an empty argument.  [DanglingRef]
    is no Python exception: it marks a read through an address outside
    the heap, which Python rules out; [wf_no_dangling] below shows it does
    not occur. *)
Inductive exn := ValueError | DanglingRef.

Inductive result (A : Type) :=
  | Ok (a : A)
  | Raise (e : exn).
Arguments Ok {A} a.
Arguments Raise {A} e.

(** A computation returns or raises, and leaves a world either way: an
    exception undoes nothing. *)
Definition M (A : Type) : Type := World → result A * World.

Definition ret {A} (a : A) : M A := λ w, (Ok a, w).

Definition raise {A} (e : exn) : M A := λ w, (Raise e, w).

Definition bind {A B} (m : M A) (k : A → M B) : M B :=
  λ w, match m w with
       | (Ok a, w') => k a w'
       | (Raise e, w') => (Raise e, w')
       end.

#[global] Instance M_ret : MRet M := @ret.
#[global] Instance M_bind : MBind M := λ A B k m, bind m k.

Definition get_world : M World := λ w, (Ok w, w).
Definition modify (f : World → World) : M unit := λ w, (Ok tt, f w).

(** [for x in xs: body(x)]. *)
Fixpoint for_each {A} (xs : list A) (body : A → M unit) : M unit :=
  match xs with
  | [] => ret tt
  | x :: rest => body x ;; for_each rest body
  end.

(** ** [_GnuPlot] *)

(** [_GnuPlot(term)]: starts one gnuplot process with an empty pipe and
    allocates the object that owns it. *)
Definition _GnuPlot_new (term : string) : M addr :=
  w ← get_world ;
  modify (set_heap (heap w ++ [mk_GnuPlot term (mkPopen [])])) ;;
  ret (length (heap w)).

(** Reading the object at an address. *)
Definition deref (a : addr) : M _GnuPlot :=
  w ← get_world ;
  match heap w !! a with
  | Some g => ret g
  | None => raise DanglingRef
  end.

(** [print(text, file=obj.proc.stdin)] on the object at address [a]. *)
Definition print_stdin (a : addr) (text : string) : M unit :=
  g ← deref a ;
  w ← get_world ;
  modify (set_heap
    (<[a := mk_GnuPlot (term g) (mkPopen (stdin (proc g) ++ [print_text [text]]))]>
       (heap w))).

(** ** [_FigureList] *)

(** [max(d)] on a dict with integer keys. *)
Definition py_max (d : gmap Z addr) : result Z :=
  match (map_to_list d).*1 with
  | [] => Raise ValueError
  | k :: ks => Ok (foldr Z.max k ks)
  end.

(** [d.setdefault(k, v)]: the value already under [k], else [v] after
    storing it.  [v] is an argument: it is evaluated by the caller before
    the dict is looked at. *)
Definition setdefault (k : Z) (v : addr) (d : gmap Z addr) : addr * gmap Z addr :=
  match d !! k with
  | Some old => (old, d)
  | None => (v, <[k := v]> d)
  end.

(** [_FigureList()], the constructor. *)
Definition _FigureList_new : M unit :=
  instance ← _GnuPlot_new DEFAULT_TERM ;
  modify (set_fl (mk_FigureList {[ 0%Z := instance ]} 0 instance)).

(** The three assignments [get_figure] makes on [self]. *)
Definition set_instances (d : gmap Z addr) (w : World) : World :=
  set_fl (mk_FigureList d (current_idx (fl w)) (current_fig (fl w))) w.
Definition set_current_idx (i : Z) (w : World) : World :=
  set_fl (mk_FigureList (instances (fl w)) i (current_fig (fl w))) w.
Definition set_current_fig (a : addr) (w : World) : World :=
  set_fl (mk_FigureList (instances (fl w)) (current_idx (fl w)) a) w.

Definition get_figure (idx : option Z) : M addr :=
  idx ← match idx with
        | None =>
            w ← get_world ;
            match py_max (instances (fl w)) with
            | Ok m => ret (m + 1)%Z
            | Raise e => raise e
            end
        | Some i => ret i
        end ;
  fresh ← _GnuPlot_new DEFAULT_TERM ;
  w ← get_world ;
  let '(instance, d) := setdefault idx fresh (instances (fl w)) in
  modify (set_instances d) ;;
  modify (set_current_idx idx) ;;
  modify (set_current_fig instance) ;;
  ret instance.

(** ** The module functions *)

Definition c (command : string) : M unit :=
  w ← get_world ;
  print_stdin (current_fig (fl w)) command.

Definition figure (number : option Z) : M (option Z) :=
  fig ← get_figure number ;
  g ← deref fig ;
  c ("set term " +:+ term g +:+ " " +:+ str_opt_int number) ;;
  ret number.

(** [zip] of the unpacked [data]: row [i] holds the [i]-th item of every
    sequence, for as long as every sequence has one; no sequence at all
    gives no row. *)
Definition heads {A} (data : list (list A)) : option (list A) :=
  mapM head data.

Definition tails {A} (data : list (list A)) : list (list A) :=
  tail <$> data.

Fixpoint zip_rows {A} (fuel : list A) (data : list (list A)) : list (list A) :=
  match fuel with
  | [] => []
  | _ :: fuel' =>
      match heads data with
      | Some row => row :: zip_rows fuel' (tails data)
      | None => []
      end
  end.

Definition zip_star {A} (data : list (list A)) : list (list A) :=
  match data with
  | [] => []
  | first :: _ => zip_rows first data
  end.

(** [open(filename, "w")]: the file is created or emptied. *)
Definition open_w (filename : string) : M unit :=
  modify (λ w, set_files (<[filename := ""]> (files w)) w).

(** [print] of unpacked [items] on the file opened under [filename]. *)
Definition print_file (filename : string) (items : list string) : M unit :=
  modify (λ w, set_files (alter (λ old, old +:+ print_text items) filename (files w)) w).

Definition s (data : list (list Z)) (filename : string) : M unit :=
  open_w filename ;;
  for_each (zip_star data) (λ items, print_file filename (str_int <$> items)).

Definition p (filename : string) (width height fontsize : Z) (term : string) : M unit :=
  c ("set term postscript size " +:+ str_int width +:+ "cm, " +:+ str_int height
     +:+ "cm color " +:+ "solid " +:+ str_int fontsize +:+ " font 'Calibri';") ;;
  c ("set out '" +:+ filename +:+ "';") ;;
  c "replot;" ;;
  c ("set term " +:+ term +:+ "; replot").

Definition pdf (filename : string) (width height fontsize : Z) (term : string) : M unit :=
  c ("set term pdf enhanced size " +:+ str_int width +:+ "cm, " +:+ str_int height
     +:+ "cm " +:+ "color solid fsize " +:+ str_int fontsize +:+ " fname 'Helvetica';") ;;
  c ("set out '" +:+ filename +:+ "';") ;;
  c "replot;" ;;
  c ("set term " +:+ term +:+ "; replot").

(** ** Startup *)

(** The world before the module body runs: no object yet, [fl] unbound
    (its fields are placeholders that [_FigureList_new] overwrites), and
    whatever files [fs] the disk holds. *)
Definition blank (fs : gmap string string) : World :=
  mkWorld [] (mk_FigureList ∅ 0 0%nat) fs.

(** [fl = _FigureList()], the last line of the module. *)
Definition startup (fs : gmap string string) : World :=
  (_FigureList_new (blank fs)).2.

(** The public calls, and the world each one leaves (whether it returned
    or raised).  [plot] is left out: the name it passes on is whatever the
    platform gives a [TemporaryFile], and it touches the world only through
    [s] and [c]. *)
Inductive call :=
  | CallGetFigure (idx : option Z)
  | CallFigure (number : option Z)
  | CallC (command : string)
  | CallS (data : list (list Z)) (filename : string)
  | CallP (filename : string) (width height fontsize : Z) (term : string)
  | CallPdf (filename : string) (width height fontsize : Z) (term : string).

Definition exec (op : call) (w : World) : World :=
  match op with
  | CallGetFigure idx => (get_figure idx w).2
  | CallFigure number => (figure number w).2
  | CallC command => (c command w).2
  | CallS data filename => (s data filename w).2
  | CallP filename width height fontsize term =>
      (p filename width height fontsize term w).2
  | CallPdf filename width height fontsize term =>
      (pdf filename width height fontsize term w).2
  end.

(** The worlds a program can be in: the one after startup, and those any
    sequence of public calls leads to. *)
Inductive reachable (fs : gmap string string) : World → Prop :=
  | reachable_startup : reachable fs (startup fs)
  | reachable_call w op : reachable fs w → reachable fs (exec op w).

(** Every reference held by the registry points into the heap. *)
Definition wf (w : World) : Prop :=
  map_Forall (λ _ a, a < length (heap w)) (instances (fl w))
  ∧ current_fig (fl w) < length (heap w).

#[global] Instance wf_dec w : Decision (wf w).
Proof. unfold wf. apply _. Defined.

(** [n] calls [figure()] in a row, with what each returned. *)
Fixpoint figure_calls (n : nat) : M (list (option Z)) :=
  match n with
  | O => ret []
  | S n' => r ← figure None ; rs ← figure_calls n' ; ret (r :: rs)
  end.

(** The object a fresh [_GnuPlot()] is. *)
Definition fresh_GnuPlot : _GnuPlot := mk_GnuPlot DEFAULT_TERM (mkPopen []).

(** The object at an address after one more [print] to its pipe. *)
Definition printed (g : _GnuPlot) (texts : list string) : _GnuPlot :=
  mk_GnuPlot (term g) (mkPopen (stdin (proc g) ++ texts)).

(** The world after [get_figure] has resolved [i], constructed its fresh
    object and stored [d] and [a] in the registry. *)
Definition selected (i : Z) (d : gmap Z addr) (a : addr) (w : World) : World :=
  mkWorld (heap w ++ [fresh_GnuPlot]) (mk_FigureList d i a) (files w).

(** The command [figure] sends. *)
Definition set_term_command (g : _GnuPlot) (number : option Z) : string :=
  "set term " +:+ term g +:+ " " +:+ str_opt_int number.

(** The text of a file that holds the given rows. *)
Definition rows_text (rows : list (list Z)) : string :=
  foldr (λ row rest, print_text (str_int <$> row) +:+ rest) "" rows.

(** Every object has the terminal it was constructed with by this module,
    the default one. *)
Definition default_terms (w : World) : Prop :=
  Forall (λ g, term g = DEFAULT_TERM) (heap w).

(** A sequence of public calls, one after the other. *)
Definition exec_all (ops : list call) (w : World) : World :=
  foldl (λ w op, exec op w) w ops.

(** The calls that go through [get_figure]. *)
Definition is_selection (op : call) : bool :=
  match op with
  | CallGetFigure _ | CallFigure _ => true
  | _ => false
  end.

(** How many gnuplot processes a call starts: one for a call that goes
    through [get_figure] and gets past [max], none otherwise. *)
Definition started (op : call) (w : World) : nat :=
  match op with
  | CallGetFigure idx | CallFigure idx =>
      match idx with
      | None => if decide (instances (fl w) = ∅) then 0 else 1
      | Some _ => 1
      end
  | _ => 0
  end.

(** An object that some id of the registry is bound to. *)
Definition referenced (w : World) (a : addr) : Prop :=
  ∃ k, instances (fl w) !! k = Some a.

(** A text in which the character [ch] does not occur. *)
Fixpoint no_char (ch : Ascii.ascii) (text : string) : Prop :=
  match text with
  | EmptyString => True
  | String x rest => x ≠ ch ∧ no_char ch rest
  end.

(** The line of a data file that holds one row. *)
Definition row_line (row : list Z) : string := join " " (str_int <$> row).

(** ** Running the monad *)

Ltac run :=
  repeat (unfold mbind, mret, M_bind, M_ret, bind, ret, raise, get_world,
            modify, _GnuPlot_new, deref, print_stdin, c; cbn).

Lemma bind_run {A B} (m : M A) (k : A → M B) w a w' :
  m w = (Ok a, w') → (x ← m ; k x) w = k a w'.
Proof. intros E. unfold mbind, M_bind, bind. by rewrite E. Qed.

Lemma bind_raise {A B} (m : M A) (k : A → M B) w e w' :
  m w = (Raise e, w') → (x ← m ; k x) w = (Raise e, w').
Proof. intros E. unfold mbind, M_bind, bind. by rewrite E. Qed.

(** ** [max] over the keys *)

Lemma foldr_max_ge (k : Z) ks : (k ≤ foldr Z.max k ks)%Z.
Proof. induction ks as [|x ks IH]; simpl; lia. Qed.

Lemma foldr_max_upper (k : Z) ks j : j ∈ ks → (j ≤ foldr Z.max k ks)%Z.
Proof.
  induction ks as [|x ks IH]; simpl.
  - by intros ?%elem_of_nil.
  - intros [->|Hj]%elem_of_cons; [lia|]. specialize (IH Hj). lia.
Qed.

Lemma foldr_max_elem (k : Z) ks : foldr Z.max k ks ∈ k :: ks.
Proof.
  induction ks as [|x ks IH]; simpl; [apply list_elem_of_here|].
  destruct (Z.max_spec x (foldr Z.max k ks)) as [[_ ->]|[_ ->]].
  - apply elem_of_cons in IH as [->|IH]; [apply list_elem_of_here|].
    by do 2 apply list_elem_of_further.
  - apply list_elem_of_further, list_elem_of_here.
Qed.

Lemma elem_of_keys (d : gmap Z addr) k :
  k ∈ (map_to_list d).*1 ↔ is_Some (d !! k).
Proof.
  rewrite list_elem_of_fmap. split.
  - intros [[k' a] [-> Hin]]. apply elem_of_map_to_list in Hin. by exists a.
  - intros [a Ha]. exists (k, a). split; [done|]. by apply elem_of_map_to_list.
Qed.

Lemma py_max_empty (d : gmap Z addr) e : py_max d = Raise e → e = ValueError ∧ d = ∅.
Proof.
  unfold py_max. destruct ((map_to_list d).*1) as [|k ks] eqn:E; [|done].
  intros [= <-]. split; [done|].
  apply fmap_nil_inv in E. by apply map_to_list_empty_iff.
Qed.

Lemma py_max_nonempty (d : gmap Z addr) : d ≠ ∅ → ∃ m, py_max d = Ok m.
Proof.
  intros Hne. destruct (py_max d) as [m|e] eqn:E; [by exists m|].
  by apply py_max_empty in E as [_ ?].
Qed.

Lemma py_max_spec (d : gmap Z addr) m :
  py_max d = Ok m → is_Some (d !! m) ∧ ∀ k, is_Some (d !! k) → (k ≤ m)%Z.
Proof.
  unfold py_max. destruct ((map_to_list d).*1) as [|k0 ks] eqn:E; [done|].
  intros [= <-]. split.
  - apply elem_of_keys. rewrite E. apply foldr_max_elem.
  - intros k Hk. apply elem_of_keys in Hk. rewrite E in Hk.
    apply elem_of_cons in Hk as [->|Hk];
      [apply foldr_max_ge | by apply foldr_max_upper].
Qed.

Lemma py_max_unique (d : gmap Z addr) m :
  is_Some (d !! m) → (∀ k, is_Some (d !! k) → (k ≤ m)%Z) → py_max d = Ok m.
Proof.
  intros Hm Hub. destruct (py_max_nonempty d) as [m' E].
  { intros ->. rewrite lookup_empty in Hm. by destruct Hm. }
  destruct (py_max_spec _ _ E) as [Hm' Hub'].
  specialize (Hub _ Hm'). specialize (Hub' _ Hm).
  rewrite E. f_equal. lia.
Qed.

Lemma py_max_fresh (d : gmap Z addr) m : py_max d = Ok m → d !! (m + 1)%Z = None.
Proof.
  intros [_ Hub]%py_max_spec.
  destruct (d !! (m + 1)%Z) as [a|] eqn:E; [|done].
  specialize (Hub (m + 1)%Z (mk_is_Some _ _ E)). lia.
Qed.

Lemma py_max_insert_next (d : gmap Z addr) m a :
  py_max d = Ok m → py_max (<[(m + 1)%Z := a]> d) = Ok (m + 1)%Z.
Proof.
  intros [_ Hub]%py_max_spec. apply py_max_unique.
  - rewrite lookup_insert_eq. by eexists.
  - intros k [b Hk]. destruct (decide (k = (m + 1)%Z)) as [->|Hne]; [lia|].
    rewrite lookup_insert_ne in Hk by done.
    specialize (Hub k (mk_is_Some _ _ Hk)). lia.
Qed.

(** ** What each operation computes *)

Lemma get_figure_present w i a :
  instances (fl w) !! i = Some a →
  get_figure (Some i) w = (Ok a, selected i (instances (fl w)) a w).
Proof. intros E. unfold get_figure, setdefault. run. by rewrite E. Qed.

Lemma get_figure_absent w i :
  instances (fl w) !! i = None →
  get_figure (Some i) w
  = (Ok (length (heap w)),
     selected i (<[i := length (heap w)]> (instances (fl w))) (length (heap w)) w).
Proof. intros E. unfold get_figure, setdefault. run. by rewrite E. Qed.

Lemma get_figure_None w m :
  py_max (instances (fl w)) = Ok m →
  get_figure None w = get_figure (Some (m + 1)%Z) w.
Proof. intros E. unfold get_figure. run. by rewrite E. Qed.

Lemma get_figure_None_raise w e :
  py_max (instances (fl w)) = Raise e → get_figure None w = (Raise e, w).
Proof. intros E. unfold get_figure. run. by rewrite E. Qed.

Lemma get_figure_next w m :
  py_max (instances (fl w)) = Ok m →
  get_figure None w
  = (Ok (length (heap w)),
     selected (m + 1) (<[(m + 1)%Z := length (heap w)]> (instances (fl w)))
       (length (heap w)) w).
Proof.
  intros E. rewrite (get_figure_None _ _ E).
  apply get_figure_absent. by apply py_max_fresh.
Qed.

Lemma c_run w command g :
  heap w !! current_fig (fl w) = Some g →
  c command w
  = (Ok tt, set_heap (<[current_fig (fl w) := printed g [command +:+ newline]]> (heap w)) w).
Proof. intros E. run. by rewrite E. Qed.

Lemma c_dangling w command :
  heap w !! current_fig (fl w) = None → c command w = (Raise DanglingRef, w).
Proof. intros E. run. by rewrite E. Qed.

(** Printing again to the object just printed to. *)
Lemma printed_printed g xs ys : printed (printed g xs) ys = printed g (xs ++ ys).
Proof. unfold printed. simpl. by rewrite <-(assoc_L (++)). Qed.

Lemma c_run_printed w a g texts command :
  current_fig (fl w) = a → a < length (heap w) →
  c command (set_heap (<[a := printed g texts]> (heap w)) w)
  = (Ok tt, set_heap (<[a := printed g (texts ++ [command +:+ newline])]> (heap w)) w).
Proof.
  intros Ha Hlt.
  rewrite (c_run _ _ (printed g texts)); simpl.
  - rewrite Ha, list_insert_insert_eq, printed_printed. done.
  - rewrite Ha. by apply list_lookup_insert_eq.
Qed.

(** ** Well-formed worlds *)

Lemma wf_lookup w : wf w → ∃ g, heap w !! current_fig (fl w) = Some g.
Proof. intros [_ Hc]. by apply lookup_lt_is_Some_2. Qed.

Lemma wf_startup fs : wf (startup fs).
Proof.
  split; simpl; [|lia].
  apply map_Forall_singleton. simpl. lia.
Qed.

Lemma wf_selected_present w i a :
  wf w → instances (fl w) !! i = Some a → wf (selected i (instances (fl w)) a w).
Proof.
  intros [Hall Hc] E. split; simpl; rewrite length_app; simpl.
  - intros k b Hk. specialize (Hall k b Hk). simpl in Hall. lia.
  - specialize (Hall i a E). simpl in Hall. lia.
Qed.

Lemma wf_selected_absent w i :
  wf w →
  wf (selected i (<[i := length (heap w)]> (instances (fl w))) (length (heap w)) w).
Proof.
  intros [Hall Hc]. split; simpl; rewrite length_app; simpl; [|lia].
  apply map_Forall_insert_2; [lia|].
  intros k b Hk. specialize (Hall k b Hk). simpl in Hall. lia.
Qed.

Lemma wf_get_figure w idx : wf w → wf (get_figure idx w).2.
Proof.
  intros Hwf. destruct idx as [i|].
  - destruct (instances (fl w) !! i) as [a|] eqn:E.
    + rewrite (get_figure_present _ _ _ E). by apply wf_selected_present.
    + rewrite (get_figure_absent _ _ E). by apply wf_selected_absent.
  - destruct (py_max (instances (fl w))) as [m|e] eqn:E.
    + rewrite (get_figure_next _ _ E). by apply wf_selected_absent.
    + by rewrite (get_figure_None_raise _ _ E).
Qed.

Lemma wf_set_heap_insert w a g :
  wf w → wf (set_heap (<[a := g]> (heap w)) w).
Proof. intros [Hall Hc]. split; simpl; rewrite length_insert; done. Qed.

Lemma wf_c w command : wf w → wf (c command w).2.
Proof.
  intros Hwf. destruct (wf_lookup _ Hwf) as [g Hg].
  rewrite (c_run _ _ _ Hg). by apply wf_set_heap_insert.
Qed.

(** A well-formed world never reads through a dangling reference. *)
Lemma wf_no_dangling w command : wf w → (c command w).1 = Ok tt.
Proof.
  intros Hwf. destruct (wf_lookup _ Hwf) as [g Hg]. by rewrite (c_run _ _ _ Hg).
Qed.

Lemma get_figure_current w idx a w1 :
  get_figure idx w = (Ok a, w1) →
  current_fig (fl w1) = a
  ∧ instances (fl w1) !! current_idx (fl w1) = Some a
  ∧ files w1 = files w.
Proof.
  destruct idx as [i|].
  - destruct (instances (fl w) !! i) as [b|] eqn:E.
    + rewrite (get_figure_present _ _ _ E). intros [= <- <-]. by simpl.
    + rewrite (get_figure_absent _ _ E). intros [= <- <-]. simpl.
      by rewrite lookup_insert_eq.
  - destruct (py_max (instances (fl w))) as [m|e] eqn:E.
    + rewrite (get_figure_next _ _ E). intros [= <- <-]. simpl.
      by rewrite lookup_insert_eq.
    + by rewrite (get_figure_None_raise _ _ E).
Qed.

Lemma figure_run w number a w1 g :
  get_figure number w = (Ok a, w1) →
  heap w1 !! a = Some g →
  figure number w
  = (Ok number,
     set_heap (<[a := printed g [set_term_command g number +:+ newline]]> (heap w1)) w1).
Proof.
  intros Hget Hg.
  destruct (get_figure_current _ _ _ _ Hget) as (Hcur & _ & _).
  unfold figure, mbind, M_bind, bind. rewrite Hget.
  unfold deref, get_world, bind, ret, mret, M_ret, mbind, M_bind, bind. rewrite Hg.
  rewrite (c_run _ _ g) by (by rewrite Hcur). by rewrite Hcur.
Qed.

Lemma figure_raise w number e w1 :
  get_figure number w = (Raise e, w1) → figure number w = (Raise e, w1).
Proof. intros Hget. unfold figure. by apply bind_raise. Qed.

Lemma get_figure_in_heap w idx a w1 :
  wf w → get_figure idx w = (Ok a, w1) → ∃ g, heap w1 !! a = Some g.
Proof.
  intros Hwf Hget. pose proof (wf_get_figure w idx Hwf) as Hwf1.
  rewrite Hget in Hwf1. simpl in Hwf1.
  destruct (get_figure_current _ _ _ _ Hget) as (<- & _ & _).
  by apply wf_lookup.
Qed.

Lemma wf_figure w number : wf w → wf (figure number w).2.
Proof.
  intros Hwf. pose proof (wf_get_figure w number Hwf) as Hwf1.
  destruct (get_figure number w) as [[a|e] w1] eqn:Hget.
  - destruct (get_figure_in_heap _ _ _ _ Hwf Hget) as [g Hg].
    rewrite (figure_run _ _ _ _ _ Hget Hg). by apply wf_set_heap_insert.
  - by rewrite (figure_raise _ _ _ _ Hget).
Qed.

(** Four commands in a row to the current figure. *)
Lemma c_four w g c1 c2 c3 c4 :
  heap w !! current_fig (fl w) = Some g →
  (c c1 ;; c c2 ;; c c3 ;; c c4) w
  = (Ok tt,
     set_heap (<[current_fig (fl w) :=
                  printed g [c1 +:+ newline; c2 +:+ newline;
                             c3 +:+ newline; c4 +:+ newline]]> (heap w)) w).
Proof.
  intros Hg. pose proof (lookup_lt_Some _ _ _ Hg) as Hlt.
  unfold mbind, M_bind, bind.
  rewrite (c_run _ _ _ Hg).
  rewrite (c_run_printed w _ g _ c2 eq_refl Hlt).
  rewrite (c_run_printed w _ g _ c3 eq_refl Hlt).
  by rewrite (c_run_printed w _ g _ c4 eq_refl Hlt).
Qed.

Lemma wf_p w filename width height fontsize term :
  wf w → wf (p filename width height fontsize term w).2.
Proof.
  intros Hwf. destruct (wf_lookup _ Hwf) as [g Hg].
  unfold p. rewrite (c_four _ _ _ _ _ _ Hg). by apply wf_set_heap_insert.
Qed.

Lemma wf_pdf w filename width height fontsize term :
  wf w → wf (pdf filename width height fontsize term w).2.
Proof.
  intros Hwf. destruct (wf_lookup _ Hwf) as [g Hg].
  unfold pdf. rewrite (c_four _ _ _ _ _ _ Hg). by apply wf_set_heap_insert.
Qed.

(** ** Writing data *)

Lemma append_assoc (x y z : string) : x +:+ (y +:+ z) = (x +:+ y) +:+ z.
Proof. induction x as [|ch x IH]; [done|]. change (String ch (x +:+ (y +:+ z)) = String ch ((x +:+ y) +:+ z)). by f_equal. Qed.

Lemma append_empty_r (x : string) : x +:+ "" = x.
Proof. induction x as [|ch x IH]; [done|]. change (String ch (x +:+ "") = String ch x). by f_equal. Qed.

Lemma for_each_print_file filename rows w old :
  files w !! filename = Some old →
  for_each rows (λ items, print_file filename (str_int <$> items)) w
  = (Ok tt, set_files (<[filename := old +:+ rows_text rows]> (files w)) w).
Proof.
  revert w old. induction rows as [|row rows IH]; intros w old Hold; simpl.
  - unfold ret. f_equal. rewrite append_empty_r, insert_id by done. by destruct w.
  - unfold mbind, M_bind, bind, print_file, modify.
    rewrite (IH _ (old +:+ print_text (str_int <$> row))); simpl.
    + f_equal. unfold set_files. simpl. f_equal.
      rewrite append_assoc.
      apply map_eq. intros j. destruct (decide (filename = j)) as [->|Hne].
      * by rewrite !lookup_insert_eq.
      * by rewrite !lookup_insert_ne, lookup_alter_ne.
    + by rewrite lookup_alter_eq, Hold.
Qed.

Lemma s_run data filename w :
  s data filename w
  = (Ok tt, set_files (<[filename := rows_text (zip_star data)]> (files w)) w).
Proof.
  unfold s, open_w, mbind, M_bind, bind, modify.
  rewrite (for_each_print_file _ _ _ ""); simpl.
  - unfold set_files. simpl. by rewrite insert_insert_eq.
  - by rewrite lookup_insert_eq.
Qed.

Lemma wf_s w data filename : wf w → wf (s data filename w).2.
Proof. intros Hwf. by rewrite s_run. Qed.

Lemma wf_exec w op : wf w → wf (exec op w).
Proof.
  destruct op; simpl; auto using wf_get_figure, wf_figure, wf_c, wf_s, wf_p, wf_pdf.
Qed.

Lemma reachable_wf fs w : reachable fs w → wf w.
Proof. induction 1; auto using wf_startup, wf_exec. Qed.

(** The registry never loses a key. *)
Lemma exec_keeps_keys w op k :
  wf w → is_Some (instances (fl w) !! k) → is_Some (instances (fl (exec op w)) !! k).
Proof.
  intros Hwf Hk. destruct (wf_lookup _ Hwf) as [g Hg].
  assert (Hget : ∀ idx, is_Some (instances (fl (get_figure idx w).2) !! k)).
  { intros [i|].
    - destruct (instances (fl w) !! i) as [a|] eqn:E.
      + by rewrite (get_figure_present _ _ _ E).
      + rewrite (get_figure_absent _ _ E). simpl.
        destruct (decide (i = k)) as [->|Hne].
        * rewrite lookup_insert_eq. by eexists.
        * by rewrite lookup_insert_ne.
    - destruct (py_max (instances (fl w))) as [m|e] eqn:E.
      + rewrite (get_figure_next _ _ E). simpl.
        destruct (decide ((m + 1)%Z = k)) as [->|Hne].
        * rewrite lookup_insert_eq. by eexists.
        * by rewrite lookup_insert_ne.
      + by rewrite (get_figure_None_raise _ _ E). }
  destruct op; simpl.
  - apply Hget.
  - specialize (Hget number).
    destruct (get_figure number w) as [[a|e] w1] eqn:Hgf.
    + destruct (get_figure_in_heap _ _ _ _ Hwf Hgf) as [g1 Hg1].
      by rewrite (figure_run _ _ _ _ _ Hgf Hg1).
    + by rewrite (figure_raise _ _ _ _ Hgf).
  - by rewrite (c_run _ _ _ Hg).
  - by rewrite s_run.
  - unfold p. by rewrite (c_four _ _ _ _ _ _ Hg).
  - unfold pdf. by rewrite (c_four _ _ _ _ _ _ Hg).
Qed.

Lemma reachable_has_zero fs w : reachable fs w → is_Some (instances (fl w) !! 0%Z).
Proof.
  induction 1 as [|w op Hr IH].
  - simpl. rewrite lookup_singleton_eq. by eexists.
  - apply exec_keeps_keys; [by eapply reachable_wf|done].
Qed.

Lemma pipe_bytes_printed g texts :
  pipe_bytes (proc (printed g texts))
  = pipe_bytes (proc g) +:+ foldr String.append "" texts.
Proof.
  unfold pipe_bytes, printed. simpl.
  induction (stdin (proc g)) as [|x xs IH]; [done|].
  change (x +:+ foldr String.append "" (xs ++ texts)
          = (x +:+ foldr String.append "" xs) +:+ foldr String.append "" texts).
  by rewrite IH, append_assoc.
Qed.

(** One [figure()] in a world whose current figure is the highest one. *)
Lemma figure_None_step w m :
  wf w → py_max (instances (fl w)) = Ok m →
  ∃ w', figure None w = (Ok None, w')
        ∧ wf w'
        ∧ py_max (instances (fl w')) = Ok (m + 1)%Z
        ∧ current_idx (fl w') = (m + 1)%Z.
Proof.
  intros Hwf Hmax.
  pose proof (get_figure_next _ _ Hmax) as Hget.
  destruct (get_figure_in_heap _ _ _ _ Hwf Hget) as [g Hg].
  pose proof (wf_figure w None Hwf) as Hwf'.
  rewrite (figure_run _ _ _ _ _ Hget Hg) in Hwf'.
  eexists. split; [apply (figure_run _ _ _ _ _ Hget Hg)|].
  split; [exact Hwf'|]. simpl. split; [|done].
  by apply py_max_insert_next.
Qed.

Lemma figure_calls_run n : ∀ w m,
  wf w → py_max (instances (fl w)) = Ok m → current_idx (fl w) = m →
  ∃ w', figure_calls n w = (Ok (replicate n None), w')
        ∧ current_idx (fl w') = (m + Z.of_nat n)%Z
        ∧ py_max (instances (fl w')) = Ok (m + Z.of_nat n)%Z.
Proof.
  induction n as [|n IH]; intros w m Hwf Hmax Hcur.
  - exists w. simpl. rewrite Z.add_0_r. done.
  - destruct (figure_None_step _ _ Hwf Hmax) as (w1 & Hfig & Hwf1 & Hmax1 & Hcur1).
    destruct (IH _ _ Hwf1 Hmax1 Hcur1) as (w' & Hrun & Hcur' & Hmax').
    exists w'. simpl. unfold mbind, M_bind, bind. rewrite Hfig, Hrun.
    replace (m + Z.of_nat (S n))%Z with (m + 1 + Z.of_nat n)%Z by lia. done.
Qed.

Lemma py_max_startup fs : py_max (instances (fl (startup fs))) = Ok 0%Z.
Proof.
  apply py_max_unique; simpl.
  - rewrite lookup_singleton_eq. by eexists.
  - intros k [a Hk]. apply lookup_singleton_Some in Hk as [<- _]. lia.
Qed.

(** The one way [get_figure] raises, and the id a given one resolves to. *)
Lemma get_figure_raise_inv w idx e w1 :
  get_figure idx w = (Raise e, w1) →
  e = ValueError ∧ idx = None ∧ instances (fl w) = ∅ ∧ w1 = w.
Proof.
  destruct idx as [i|].
  - destruct (instances (fl w) !! i) as [b|] eqn:E.
    + by rewrite (get_figure_present _ _ _ E).
    + by rewrite (get_figure_absent _ _ E).
  - destruct (py_max (instances (fl w))) as [m|e'] eqn:E.
    + by rewrite (get_figure_next _ _ E).
    + rewrite (get_figure_None_raise _ _ E). intros [= <- <-].
      by destruct (py_max_empty _ _ E) as [-> ->].
Qed.

Lemma get_figure_Some_idx w k a w1 :
  get_figure (Some k) w = (Ok a, w1) → current_idx (fl w1) = k.
Proof.
  destruct (instances (fl w) !! k) as [b|] eqn:E.
  - rewrite (get_figure_present _ _ _ E). by intros [= <- <-].
  - rewrite (get_figure_absent _ _ E). by intros [= <- <-].
Qed.

(** ** Terminals *)

Lemma default_terms_selected w i d a :
  default_terms w → default_terms (selected i d a w).
Proof.
  intros Hall. unfold default_terms. simpl.
  apply Forall_app. split; [done|]. by apply Forall_singleton.
Qed.

Lemma default_terms_printed w a g texts :
  default_terms w → heap w !! a = Some g →
  default_terms (set_heap (<[a := printed g texts]> (heap w)) w).
Proof.
  intros Hall Hg. unfold default_terms. simpl.
  apply Forall_insert; [done|]. simpl.
  by apply (Forall_lookup_1 _ _ _ _ Hall Hg).
Qed.

Lemma default_terms_get_figure w idx :
  default_terms w → default_terms (get_figure idx w).2.
Proof.
  intros Hall. destruct idx as [i|].
  - destruct (instances (fl w) !! i) as [a|] eqn:E.
    + rewrite (get_figure_present _ _ _ E). by apply default_terms_selected.
    + rewrite (get_figure_absent _ _ E). by apply default_terms_selected.
  - destruct (py_max (instances (fl w))) as [m|e] eqn:E.
    + rewrite (get_figure_next _ _ E). by apply default_terms_selected.
    + by rewrite (get_figure_None_raise _ _ E).
Qed.

Lemma default_terms_exec w op : wf w → default_terms w → default_terms (exec op w).
Proof.
  intros Hwf Hall. destruct (wf_lookup _ Hwf) as [g Hg].
  destruct op; simpl.
  - by apply default_terms_get_figure.
  - pose proof (default_terms_get_figure w number Hall) as Hall1.
    destruct (get_figure number w) as [[a|e] w1] eqn:Hgf.
    + destruct (get_figure_in_heap _ _ _ _ Hwf Hgf) as [g1 Hg1].
      rewrite (figure_run _ _ _ _ _ Hgf Hg1). by apply default_terms_printed.
    + by rewrite (figure_raise _ _ _ _ Hgf).
  - rewrite (c_run _ _ _ Hg). by apply default_terms_printed.
  - by rewrite s_run.
  - unfold p. rewrite (c_four _ _ _ _ _ _ Hg). by apply default_terms_printed.
  - unfold pdf. rewrite (c_four _ _ _ _ _ _ Hg). by apply default_terms_printed.
Qed.

Lemma reachable_default_terms fs w : reachable fs w → default_terms w.
Proof.
  induction 1 as [|w op Hr IH].
  - unfold default_terms. simpl. by apply Forall_singleton.
  - apply default_terms_exec; [by eapply reachable_wf|done].
Qed.

(** ** Zipping *)

Section zip.
Context {A : Type}.
Implicit Types (fuel row : list A) (data : list (list A)).

(** Sequences of one length [n] give [n] rows, and row [i] holds item [i]
    of each sequence, in the order of the sequences. *)
Lemma zip_rows_lookup fuel : ∀ data i,
  Forall (λ l, length l = length fuel) data →
  i < length fuel →
  zip_rows fuel data !! i = mapM (λ l, l !! i) data.
Proof.
  induction fuel as [|x fuel IH]; intros data i Hlen Hi; simpl in *; [lia|].
  assert (Hheads : is_Some (heads data)).
  { apply mapM_is_Some_2. eapply Forall_impl; [exact Hlen|].
    intros [|y l] Hl; simpl in *; [lia|by eexists]. }
  destruct Hheads as [row Hrow]. rewrite Hrow.
  destruct i as [|j]; simpl.
  - rewrite <-Hrow. apply mapM_ext, head_lookup.
  - rewrite IH; [| |lia].
    + apply Forall2_mapM_ext, Forall2_fmap_l, Forall_Forall2_diag.
      apply Forall_true. intros l. apply lookup_tail.
    + apply Forall_fmap. eapply Forall_impl; [exact Hlen|].
      intros [|y l] Hl; simpl in *; lia.
Qed.

Lemma zip_rows_length fuel : ∀ data,
  Forall (λ l, length l = length fuel) data →
  length (zip_rows fuel data) = length fuel.
Proof.
  induction fuel as [|x fuel IH]; intros data Hlen; simpl in *; [done|].
  assert (Hheads : is_Some (heads data)).
  { apply mapM_is_Some_2. eapply Forall_impl; [exact Hlen|].
    intros [|y l] Hl; simpl in *; [lia|by eexists]. }
  destruct Hheads as [row Hrow]. rewrite Hrow. simpl. f_equal.
  apply IH, Forall_fmap. eapply Forall_impl; [exact Hlen|].
  intros [|y l] Hl; simpl in *; lia.
Qed.

Lemma zip_star_equal_length data n :
  data ≠ [] → Forall (λ l, length l = n) data →
  length (zip_star data) = n
  ∧ ∀ i, i < n → zip_star data !! i = mapM (λ l, l !! i) data.
Proof.
  destruct data as [|first rest]; [done|]. intros _ Hlen.
  pose proof (Forall_inv Hlen) as Hn. simpl in Hn. subst n.
  split; [by apply zip_rows_length|].
  intros i Hi. by apply zip_rows_lookup.
Qed.
End zip.

(** ** The claims *)

(** C1 (the code departs from the claim).  From the seeded registry, [n]
    calls [figure()] in a row all return [None], the argument they were
    given, and not the id they resolved; the registry's [current_idx] does
    move up by one with each call and is [n] after the [n]-th. *)
Theorem figure_calls_return_None fs n :
  ∃ w', figure_calls n (startup fs) = (Ok (replicate n None), w')
        ∧ current_idx (fl w') = Z.of_nat n.
Proof.
  destruct (figure_calls_run n (startup fs) 0%Z) as (w' & Hrun & Hcur & _).
  - apply wf_startup.
  - apply py_max_startup.
  - done.
  - exists w'. by rewrite Hrun, Hcur.
Qed.

(** C2 (the code departs from the claim).  [get_figure(k)] for a key [k]
    of the registry returns the handle stored under [k], and has by then
    constructed one more [_GnuPlot], that is started one more gnuplot
    process, which no key refers to. *)
Theorem get_figure_existing_starts_process w k a :
  instances (fl w) !! k = Some a →
  ∃ w', get_figure (Some k) w = (Ok a, w')
        ∧ length (heap w') = S (length (heap w))
        ∧ heap w' !! length (heap w) = Some fresh_GnuPlot
        ∧ instances (fl w') = instances (fl w).
Proof.
  intros Hk. eexists. split; [by apply get_figure_present|]. simpl.
  rewrite length_app, lookup_app_r, Nat.sub_diag by lia. simpl.
  split; [lia|done].
Qed.

Lemma get_figure_existing_starts_process_witness :
  instances (fl (startup ∅)) !! 0%Z = Some 0
  ∧ ∃ w', get_figure (Some 0%Z) (startup ∅) = (Ok 0, w')
          ∧ length (heap w') = S (length (heap (startup ∅)))
          ∧ heap w' !! length (heap (startup ∅)) = Some fresh_GnuPlot
          ∧ instances (fl w') = instances (fl (startup ∅)).
Proof.
  split; [reflexivity|].
  apply (get_figure_existing_starts_process (startup ∅) 0%Z 0). reflexivity.
Defined.

(** C3.  [c(command)] prints to the pipe of the current figure the text
    [command] followed by one newline, in one [print], and changes nothing
    else: no other object, not the registry, no file. *)
Theorem c_writes_command_newline w command :
  wf w →
  ∃ g g' w',
    heap w !! current_fig (fl w) = Some g
    ∧ c command w = (Ok tt, w')
    ∧ heap w' !! current_fig (fl w) = Some g'
    ∧ term g' = term g
    ∧ stdin (proc g') = stdin (proc g) ++ [command +:+ newline]
    ∧ pipe_bytes (proc g') = pipe_bytes (proc g) +:+ (command +:+ newline)
    ∧ (∀ b, b ≠ current_fig (fl w) → heap w' !! b = heap w !! b)
    ∧ length (heap w') = length (heap w)
    ∧ fl w' = fl w
    ∧ files w' = files w.
Proof.
  intros Hwf. destruct (wf_lookup _ Hwf) as [g Hg].
  pose proof (lookup_lt_Some _ _ _ Hg) as Hlt.
  assert (Hbytes : pipe_bytes (proc (printed g [command +:+ newline]))
                   = pipe_bytes (proc g) +:+ (command +:+ newline)).
  { rewrite pipe_bytes_printed. cbn [foldr]. by rewrite append_empty_r. }
  exists g, (printed g [command +:+ newline]). eexists.
  split; [done|]. split; [by apply c_run|].
  split; [by apply list_lookup_insert_eq|].
  split; [done|]. split; [done|]. split; [exact Hbytes|]. simpl.
  split; [by intros b Hb; apply list_lookup_insert_ne|].
  split; [by rewrite length_insert|done].
Qed.

Lemma c_writes_command_newline_witness :
  wf (startup ∅)
  ∧ ∃ g g' w',
      heap (startup ∅) !! current_fig (fl (startup ∅)) = Some g
      ∧ c "plot sin(x)" (startup ∅) = (Ok tt, w')
      ∧ heap w' !! current_fig (fl (startup ∅)) = Some g'
      ∧ term g' = term g
      ∧ stdin (proc g') = stdin (proc g) ++ ["plot sin(x)" +:+ newline]
      ∧ pipe_bytes (proc g') = pipe_bytes (proc g) +:+ ("plot sin(x)" +:+ newline)
      ∧ (∀ b, b ≠ current_fig (fl (startup ∅)) → heap w' !! b = heap (startup ∅) !! b)
      ∧ length (heap w') = length (heap (startup ∅))
      ∧ fl w' = fl (startup ∅)
      ∧ files w' = files (startup ∅).
Proof.
  assert (Hwf : wf (startup ∅)) by compute_done.
  split; [exact Hwf|].
  apply (c_writes_command_newline (startup ∅) "plot sin(x)" Hwf).
Defined.

(** The spec's own example of [c]: on the seeded registry the pipe of
    figure 0 receives the one text below and nothing else. *)
Example c_plot_sin :
  (c "plot sin(x)" (startup ∅)).1 = Ok tt
  ∧ stdin ∘ proc <$> heap (c "plot sin(x)" (startup ∅)).2
    = [[String.append "plot sin(x)" newline]].
Proof. split; reflexivity. Qed.

(** C4.  [s([[1,2,3],[4,5,6]], filename)] leaves under [filename] a file
    of exactly three lines, [1 4], [2 5] and [3 6] in that order: the two
    sequences zipped column by column, one row a line, the two numbers of
    a row separated by one space.  Nothing else in the world changes. *)
Theorem s_two_columns_example filename w :
  s [[1; 2; 3]; [4; 5; 6]]%Z filename w
  = (Ok tt,
     set_files
       (<[filename := "1 4" +:+ newline +:+ "2 5" +:+ newline +:+ "3 6" +:+ newline]>
          (files w)) w)
  ∧ zip_star [[1; 2; 3]; [4; 5; 6]]%Z = [[1; 4]; [2; 5]; [3; 6]]%Z
  ∧ lines ("1 4" +:+ newline +:+ "2 5" +:+ newline +:+ "3 6" +:+ newline)
    = ["1 4"; "2 5"; "3 6"].
Proof. split; [by rewrite s_run|]. split; reflexivity. Qed.

(** C5.  [get_figure(idx)] returns in every case but one, and then the
    registry's [current_fig] is the handle returned, it is the handle that
    [instances] holds under [current_idx], and [current_idx] is the id
    resolved: [idx] itself when given, one more than the highest key when
    not.  The one case is [idx] absent on an empty registry, where [max]
    raises [ValueError] and the world stays as it was. *)
Theorem get_figure_selects w idx :
  match get_figure idx w with
  | (Ok a, w') =>
      instances (fl w') !! current_idx (fl w') = Some (current_fig (fl w'))
      ∧ current_fig (fl w') = a
      ∧ match idx with
        | Some i => current_idx (fl w') = i
        | None => py_max (instances (fl w)) = Ok (current_idx (fl w') - 1)%Z
        end
  | (Raise e, w') =>
      e = ValueError ∧ idx = None ∧ instances (fl w) = ∅ ∧ w' = w
  end.
Proof.
  destruct idx as [i|].
  - destruct (instances (fl w) !! i) as [b|] eqn:E.
    + rewrite (get_figure_present _ _ _ E). by simpl.
    + rewrite (get_figure_absent _ _ E). simpl. by rewrite lookup_insert_eq.
  - destruct (py_max (instances (fl w))) as [m|e] eqn:E.
    + rewrite (get_figure_next _ _ E). simpl. rewrite lookup_insert_eq.
      by replace (m + 1 - 1)%Z with m by lia.
    + rewrite (get_figure_None_raise _ _ E).
      by destruct (py_max_empty _ _ E) as [-> ->].
Qed.

(** C6.  [p] and [pdf] each print four texts to the pipe of the current
    figure, one per call of [c], in this order: the [set term] command of
    the output format, the [set out] command with the file name, [replot;],
    and the command that sets the terminal back to [t] and replots.  In a
    world that the public calls lead to from startup, the default [t] is
    the terminal the figure was made with. *)
Theorem export_four_commands w filename width height fontsize t :
  wf w →
  ∃ g, heap w !! current_fig (fl w) = Some g
    ∧ p filename width height fontsize t w
      = (Ok tt,
         set_heap
           (<[current_fig (fl w) :=
               printed g
                 [("set term postscript size " +:+ str_int width +:+ "cm, "
                   +:+ str_int height +:+ "cm color solid " +:+ str_int fontsize
                   +:+ " font 'Calibri';") +:+ newline;
                  ("set out '" +:+ filename +:+ "';") +:+ newline;
                  "replot;" +:+ newline;
                  ("set term " +:+ t +:+ "; replot") +:+ newline]]> (heap w)) w)
    ∧ pdf filename width height fontsize t w
      = (Ok tt,
         set_heap
           (<[current_fig (fl w) :=
               printed g
                 [("set term pdf enhanced size " +:+ str_int width +:+ "cm, "
                   +:+ str_int height +:+ "cm color solid fsize " +:+ str_int fontsize
                   +:+ " fname 'Helvetica';") +:+ newline;
                  ("set out '" +:+ filename +:+ "';") +:+ newline;
                  "replot;" +:+ newline;
                  ("set term " +:+ t +:+ "; replot") +:+ newline]]> (heap w)) w)
    ∧ (∀ fs, reachable fs w → term g = DEFAULT_TERM).
Proof.
  intros Hwf. destruct (wf_lookup _ Hwf) as [g Hg]. exists g.
  split; [done|]. unfold p, pdf. rewrite !(c_four _ _ _ _ _ _ Hg).
  split; [done|]. split; [done|].
  intros fs Hr. apply reachable_default_terms in Hr.
  by apply (Forall_lookup_1 _ _ _ _ Hr Hg).
Qed.

Lemma export_four_commands_witness :
  wf (startup ∅)
  ∧ ∃ g, heap (startup ∅) !! current_fig (fl (startup ∅)) = Some g
    ∧ p "tmp.ps" 14 9 12 DEFAULT_TERM (startup ∅)
      = (Ok tt,
         set_heap
           (<[current_fig (fl (startup ∅)) :=
               printed g
                 [("set term postscript size " +:+ str_int 14 +:+ "cm, "
                   +:+ str_int 9 +:+ "cm color solid " +:+ str_int 12
                   +:+ " font 'Calibri';") +:+ newline;
                  ("set out '" +:+ "tmp.ps" +:+ "';") +:+ newline;
                  "replot;" +:+ newline;
                  ("set term " +:+ DEFAULT_TERM +:+ "; replot") +:+ newline]]>
              (heap (startup ∅))) (startup ∅))
    ∧ pdf "tmp.ps" 14 9 12 DEFAULT_TERM (startup ∅)
      = (Ok tt,
         set_heap
           (<[current_fig (fl (startup ∅)) :=
               printed g
                 [("set term pdf enhanced size " +:+ str_int 14 +:+ "cm, "
                   +:+ str_int 9 +:+ "cm color solid fsize " +:+ str_int 12
                   +:+ " fname 'Helvetica';") +:+ newline;
                  ("set out '" +:+ "tmp.ps" +:+ "';") +:+ newline;
                  "replot;" +:+ newline;
                  ("set term " +:+ DEFAULT_TERM +:+ "; replot") +:+ newline]]>
              (heap (startup ∅))) (startup ∅))
    ∧ (∀ fs, reachable fs (startup ∅) → term g = DEFAULT_TERM).
Proof.
  assert (Hwf : wf (startup ∅)) by compute_done.
  split; [exact Hwf|].
  apply (export_four_commands (startup ∅) "tmp.ps" 14 9 12 DEFAULT_TERM Hwf).
Defined.

(** What gnuplot receives from [p("myfigure.ps")] on the seeded registry,
    with the defaults of the other arguments. *)
Example p_myfigure :
  stdin ∘ proc <$> heap (p "myfigure.ps" 14 9 12 DEFAULT_TERM (startup ∅)).2
  = [[String.append
        "set term postscript size 14cm, 9cm color solid 12 font 'Calibri';" newline;
      String.append "set out 'myfigure.ps';" newline;
      String.append "replot;" newline;
      String.append "set term x11; replot" newline]].
Proof. reflexivity. Qed.

(** C7.  [get_figure(k)] for a key [k] of the registry keeps the handle
    under [k]: after the call [instances] holds under [k] the same address
    as before, the whole mapping is as before, and every object that was
    in the heap is still there unchanged. *)
Theorem get_figure_existing_same_handle w k a :
  instances (fl w) !! k = Some a →
  ∃ w', get_figure (Some k) w = (Ok a, w')
        ∧ instances (fl w') !! k = Some a
        ∧ instances (fl w') = instances (fl w)
        ∧ (∀ b g, heap w !! b = Some g → heap w' !! b = Some g).
Proof.
  intros Hk. eexists. split; [by apply get_figure_present|]. simpl.
  split; [done|]. split; [done|].
  intros b g Hb. by apply lookup_app_l_Some.
Qed.

Lemma get_figure_existing_same_handle_witness :
  instances (fl (startup ∅)) !! 0%Z = Some 0
  ∧ ∃ w', get_figure (Some 0%Z) (startup ∅) = (Ok 0, w')
          ∧ instances (fl w') !! 0%Z = Some 0
          ∧ instances (fl w') = instances (fl (startup ∅))
          ∧ (∀ b g, heap (startup ∅) !! b = Some g → heap w' !! b = Some g).
Proof.
  split; [reflexivity|].
  apply (get_figure_existing_same_handle (startup ∅) 0%Z 0). reflexivity.
Defined.

(** C8.  [get_figure(k)] for a [k] that is no key of the registry adds
    one entry: the key [k], bound to a handle that was not in the heap
    before, has the default terminal and an empty pipe, and is the current
    one.  Every other key is bound as before, and every object that was in
    the heap is still there unchanged. *)
Theorem get_figure_new_inserts_one w k :
  instances (fl w) !! k = None →
  ∃ a w', get_figure (Some k) w = (Ok a, w')
          ∧ instances (fl w') = <[k := a]> (instances (fl w))
          ∧ size (instances (fl w')) = S (size (instances (fl w)))
          ∧ heap w !! a = None
          ∧ heap w' !! a = Some (mk_GnuPlot DEFAULT_TERM (mkPopen []))
          ∧ current_idx (fl w') = k
          ∧ current_fig (fl w') = a
          ∧ (∀ j, j ≠ k → instances (fl w') !! j = instances (fl w) !! j)
          ∧ (∀ b g, heap w !! b = Some g → heap w' !! b = Some g).
Proof.
  intros Hk. exists (length (heap w)). eexists.
  split; [by apply get_figure_absent|]. simpl.
  split; [done|]. split; [by apply map_size_insert_None|].
  split; [by apply lookup_ge_None_2|].
  split; [by rewrite lookup_app_r, Nat.sub_diag by lia|].
  split; [done|]. split; [done|].
  split; [by intros j Hj; apply lookup_insert_ne|].
  intros b g Hb. by apply lookup_app_l_Some.
Qed.

Lemma get_figure_new_inserts_one_witness :
  instances (fl (startup ∅)) !! 5%Z = None
  ∧ ∃ a w', get_figure (Some 5%Z) (startup ∅) = (Ok a, w')
            ∧ instances (fl w') = <[5%Z := a]> (instances (fl (startup ∅)))
            ∧ size (instances (fl w')) = S (size (instances (fl (startup ∅))))
            ∧ heap (startup ∅) !! a = None
            ∧ heap w' !! a = Some (mk_GnuPlot DEFAULT_TERM (mkPopen []))
            ∧ current_idx (fl w') = 5%Z
            ∧ current_fig (fl w') = a
            ∧ (∀ j, j ≠ 5%Z →
                 instances (fl w') !! j = instances (fl (startup ∅)) !! j)
            ∧ (∀ b g, heap (startup ∅) !! b = Some g → heap w' !! b = Some g).
Proof.
  split; [reflexivity|].
  apply (get_figure_new_inserts_one (startup ∅) 5%Z). reflexivity.
Defined.

(** C9.  Startup seeds the registry with one handle, under id 0, which is
    the current one; and in every world that the public calls lead to from
    there the registry has a key, so [max] over its keys has a value and
    [get_figure()] returns instead of raising [ValueError]. *)
Theorem registry_never_empty fs w :
  reachable fs w →
  (instances (fl (startup fs)) = {[ 0%Z := 0 ]}
   ∧ current_idx (fl (startup fs)) = 0%Z
   ∧ current_fig (fl (startup fs)) = 0
   ∧ heap (startup fs) = [mk_GnuPlot DEFAULT_TERM (mkPopen [])])
  ∧ instances (fl w) ≠ ∅
  ∧ (∃ m, py_max (instances (fl w)) = Ok m)
  ∧ (∃ a w', get_figure None w = (Ok a, w')).
Proof.
  intros Hr. split; [done|].
  assert (Hne : instances (fl w) ≠ ∅).
  { intros Hempty. destruct (reachable_has_zero _ _ Hr) as [a Ha].
    by rewrite Hempty, lookup_empty in Ha. }
  split; [done|].
  destruct (py_max_nonempty _ Hne) as [m Hm].
  split; [by exists m|].
  do 2 eexists. by apply get_figure_next.
Qed.

Lemma registry_never_empty_witness :
  reachable ∅ (exec (CallFigure None) (startup ∅))
  ∧ (instances (fl (startup ∅)) = {[ 0%Z := 0 ]}
     ∧ current_idx (fl (startup ∅)) = 0%Z
     ∧ current_fig (fl (startup ∅)) = 0
     ∧ heap (startup ∅) = [mk_GnuPlot DEFAULT_TERM (mkPopen [])])
  ∧ instances (fl (exec (CallFigure None) (startup ∅))) ≠ ∅
  ∧ (∃ m, py_max (instances (fl (exec (CallFigure None) (startup ∅)))) = Ok m)
  ∧ (∃ a w', get_figure None (exec (CallFigure None) (startup ∅)) = (Ok a, w')).
Proof.
  assert (Hr : reachable ∅ (exec (CallFigure None) (startup ∅))).
  { apply reachable_call, reachable_startup. }
  split; [exact Hr|].
  apply (registry_never_empty ∅ _ Hr).
Defined.

(** C10.  Every [figure(number)] that selects a figure also sends it one
    command, [set term], the terminal of that figure, a space, and [number]
    as [str] prints it, in one [print]; it then returns [number].  With no
    argument the figure is a new one, its terminal is the default one, and
    the text is [set term x11 None]. *)
Theorem figure_sends_set_term w number :
  wf w →
  (number = None → instances (fl w) ≠ ∅) →
  ∃ a w1 g,
    get_figure number w = (Ok a, w1)
    ∧ current_fig (fl w1) = a
    ∧ heap w1 !! a = Some g
    ∧ figure number w
      = (Ok number,
         set_heap
           (<[a := printed g [("set term " +:+ term g +:+ " " +:+ str_opt_int number)
                               +:+ newline]]> (heap w1)) w1)
    ∧ (number = None →
       g = mk_GnuPlot "x11" (mkPopen [])
       ∧ ("set term " +:+ term g +:+ " " +:+ str_opt_int number) +:+ newline
         = "set term x11 None" +:+ newline).
Proof.
  intros Hwf Hne.
  destruct (get_figure number w) as [[a|e] w1] eqn:Hget.
  - destruct (get_figure_in_heap _ _ _ _ Hwf Hget) as [g Hg].
    destruct (get_figure_current _ _ _ _ Hget) as (Hcur & _ & _).
    exists a, w1, g. split; [done|]. split; [done|]. split; [done|].
    split; [by apply figure_run|].
    intros ->. destruct (py_max_nonempty _ (Hne eq_refl)) as [m Hm].
    rewrite (get_figure_next _ _ Hm) in Hget. injection Hget as <- <-.
    simpl in Hg. rewrite lookup_app_r, Nat.sub_diag in Hg by lia.
    injection Hg as <-. done.
  - destruct (get_figure_raise_inv _ _ _ _ Hget) as (_ & Hnum & Hempty & _).
    by destruct (Hne Hnum).
Qed.

Lemma figure_sends_set_term_witness :
  wf (startup ∅)
  ∧ (@None Z = None → instances (fl (startup ∅)) ≠ ∅)
  ∧ ∃ a w1 g,
      get_figure None (startup ∅) = (Ok a, w1)
      ∧ current_fig (fl w1) = a
      ∧ heap w1 !! a = Some g
      ∧ figure None (startup ∅)
        = (Ok None,
           set_heap
             (<[a := printed g [("set term " +:+ term g +:+ " " +:+ str_opt_int None)
                                 +:+ newline]]> (heap w1)) w1)
      ∧ (@None Z = None →
         g = mk_GnuPlot "x11" (mkPopen [])
         ∧ ("set term " +:+ term g +:+ " " +:+ str_opt_int None) +:+ newline
           = "set term x11 None" +:+ newline).
Proof.
  assert (Hwf : wf (startup ∅)) by compute_done.
  assert (Hne : @None Z = None → instances (fl (startup ∅)) ≠ ∅).
  { intros _. simpl. apply map_non_empty_singleton. }
  split; [exact Hwf|]. split; [exact Hne|].
  apply (figure_sends_set_term (startup ∅) None Hwf Hne).
Defined.

(** What gnuplot receives from [figure()] and from [figure(2)] on the
    seeded registry: the pipe of figure 0 stays empty, the new figure gets
    the one command. *)
Example figure_no_argument :
  (figure None (startup ∅)).1 = Ok None
  ∧ stdin ∘ proc <$> heap (figure None (startup ∅)).2
    = [[]; [String.append "set term x11 None" newline]].
Proof. split; reflexivity. Qed.

Example figure_two :
  (figure (Some 2%Z) (startup ∅)).1 = Ok (Some 2%Z)
  ∧ stdin ∘ proc <$> heap (figure (Some 2%Z) (startup ∅)).2
    = [[]; [String.append "set term x11 2" newline]].
Proof. split; reflexivity. Qed.

(** * Further properties *)

(** ** The shape of a call *)

Lemma printed_nil g : printed g [] = g.
Proof. destruct g as [t [pipe]]. unfold printed. simpl. by rewrite app_nil_r. Qed.

(** What a returning [get_figure] has done: bound nothing new, or bound
    the id to the object it constructed. *)
Lemma get_figure_ok_inv w idx a w1 :
  get_figure idx w = (Ok a, w1) →
  ∃ i, (instances (fl w) !! i = Some a
        ∧ w1 = selected i (instances (fl w)) a w)
     ∨ (instances (fl w) !! i = None
        ∧ a = length (heap w)
        ∧ w1 = selected i (<[i := a]> (instances (fl w))) a w).
Proof.
  destruct idx as [i|].
  - destruct (instances (fl w) !! i) as [b|] eqn:E.
    + rewrite (get_figure_present _ _ _ E). intros [= <- <-]. exists i. by left.
    + rewrite (get_figure_absent _ _ E). intros [= <- <-]. exists i. by right.
  - destruct (py_max (instances (fl w))) as [m|e] eqn:E.
    + rewrite (get_figure_next _ _ E). intros [= <- <-].
      exists (m + 1)%Z. right. split; [by apply py_max_fresh|done].
    + by rewrite (get_figure_None_raise _ _ E).
Qed.

(** When [get_figure] returns. *)
Lemma get_figure_returns w idx :
  (idx = None → instances (fl w) ≠ ∅) → ∃ a w1, get_figure idx w = (Ok a, w1).
Proof.
  intros Hne. destruct idx as [i|].
  - destruct (instances (fl w) !! i) as [b|] eqn:E.
    + do 2 eexists. by apply get_figure_present.
    + do 2 eexists. by apply get_figure_absent.
  - destruct (py_max_nonempty _ (Hne eq_refl)) as [m Hm].
    do 2 eexists. by apply get_figure_next.
Qed.

Lemma get_figure_empty w :
  instances (fl w) = ∅ → get_figure None w = (Raise ValueError, w).
Proof.
  intros Hempty. apply get_figure_None_raise.
  destruct (py_max (instances (fl w))) as [m|e] eqn:E.
  - apply py_max_spec in E as [[a Ha] _]. by rewrite Hempty, lookup_empty in Ha.
  - by apply py_max_empty in E as [-> _].
Qed.

(** Every call is an optional selection, then some texts printed to the
    figure that is current by then, and for [s] one file written. *)
Lemma exec_shape w op :
  wf w →
  ∃ w1 g texts fs',
    (w1 = w ∧ started op w = 0 ∨ (∃ idx a, get_figure idx w = (Ok a, w1))
                                 ∧ started op w = 1 ∧ is_selection op = true)
    ∧ wf w1
    ∧ heap w1 !! current_fig (fl w1) = Some g
    ∧ exec op w
      = mkWorld (<[current_fig (fl w1) := printed g texts]> (heap w1)) (fl w1) fs'
    ∧ (is_selection op = true → texts = [] ∨ ∃ n, op = CallFigure n)
    ∧ (fs' = files w ∧ (∀ d f, op ≠ CallS d f)
       ∨ ∃ d f, op = CallS d f ∧ texts = []
                ∧ fs' = <[f := rows_text (zip_star d)]> (files w)).
Proof.
  intros Hwf. destruct (wf_lookup _ Hwf) as [g Hg].
  assert (Hid : ∀ v h, heap v !! current_fig (fl v) = Some h →
    v = mkWorld (<[current_fig (fl v) := printed h []]> (heap v)) (fl v) (files v)).
  { intros [hp f fs] h Hh. simpl in *. by rewrite printed_nil, list_insert_id. }
  assert (Hstart : ∀ idx a w1, get_figure idx w = (Ok a, w1) →
    match idx with
    | None => if decide (instances (fl w) = ∅) then 0 else 1
    | Some _ => 1
    end = 1).
  { intros [i|] a w1 Hget; [done|]. case_decide as Hempty; [|done].
    by rewrite (get_figure_empty _ Hempty) in Hget. }
  assert (Hstop : ∀ idx e w1, get_figure idx w = (Raise e, w1) →
    w1 = w ∧ match idx with
             | None => if decide (instances (fl w) = ∅) then 0 else 1
             | Some _ => 1
             end = 0).
  { intros idx e w1 Hget.
    destruct (get_figure_raise_inv _ _ _ _ Hget) as (_ & -> & Hempty & ->).
    split; [done|]. by case_decide. }
  destruct op as [idx|number|command|data filename|fn wd ht fsz t|fn wd ht fsz t]; simpl.
  - destruct (get_figure idx w) as [[a|e] w1] eqn:Hget.
    + pose proof (wf_get_figure w idx Hwf) as Hwf1. rewrite Hget in Hwf1.
      destruct (wf_lookup _ Hwf1) as [g1 Hg1]. simpl in Hwf1, Hg1.
      exists w1, g1, [], (files w1). simpl.
      split; [right; eauto 10|]. split; [done|]. split; [done|].
      split; [by apply Hid|]. split; [by left|].
      left. by destruct (get_figure_current _ _ _ _ Hget) as (_ & _ & ->).
    + destruct (Hstop _ _ _ Hget) as [-> H0].
      exists w, g, [], (files w). simpl.
      split; [by left|]. split; [done|]. split; [done|].
      split; [by apply Hid|]. split; [by left|]. by left.
  - destruct (get_figure number w) as [[a|e] w1] eqn:Hget.
    + pose proof (wf_get_figure w number Hwf) as Hwf1. rewrite Hget in Hwf1.
      simpl in Hwf1.
      destruct (get_figure_in_heap _ _ _ _ Hwf Hget) as [g1 Hg1].
      destruct (get_figure_current _ _ _ _ Hget) as (Hcur & _ & Hfs).
      rewrite (figure_run _ _ _ _ _ Hget Hg1). simpl.
      exists w1, g1, [set_term_command g1 number +:+ newline], (files w1).
      split; [right; eauto 10|]. split; [done|].
      split; [by rewrite Hcur|]. split; [by rewrite Hcur|].
      split; [right; by eexists|]. left. by rewrite Hfs.
    + destruct (Hstop _ _ _ Hget) as [-> H0].
      rewrite (figure_raise _ _ _ _ Hget). simpl.
      exists w, g, [], (files w).
      split; [by left|]. split; [done|]. split; [done|].
      split; [by apply Hid|]. split; [by left|]. by left.
  - rewrite (c_run _ _ _ Hg). simpl.
    exists w, g, [command +:+ newline], (files w).
    split; [by left|]. split; [done|]. split; [done|].
    split; [done|]. split; [done|]. by left.
  - rewrite s_run. simpl.
    exists w, g, [], (<[filename := rows_text (zip_star data)]> (files w)).
    split; [by left|]. split; [done|]. split; [done|].
    split; [by rewrite printed_nil, list_insert_id|]. split; [done|].
    right. by exists data, filename.
  - unfold p. rewrite (c_four _ _ _ _ _ _ Hg). simpl.
    eexists w, g, _, (files w).
    split; [by left|]. split; [done|]. split; [done|].
    split; [done|]. split; [done|]. by left.
  - unfold pdf. rewrite (c_four _ _ _ _ _ _ Hg). simpl.
    eexists w, g, _, (files w).
    split; [by left|]. split; [done|]. split; [done|].
    split; [done|]. split; [done|]. by left.
Qed.

Lemma wf_exec_all ops : ∀ w, wf w → wf (exec_all ops w).
Proof.
  induction ops as [|op ops IH]; intros w Hwf; simpl; [done|].
  by apply IH, wf_exec.
Qed.

Lemma selected_keeps_binding w idx a w1 k b :
  get_figure idx w = (Ok a, w1) →
  instances (fl w) !! k = Some b → instances (fl w1) !! k = Some b.
Proof.
  intros Hget Hk.
  destruct (get_figure_ok_inv _ _ _ _ Hget) as [i [[Hi ->]|(Hi & -> & ->)]]; simpl.
  - done.
  - rewrite lookup_insert_ne; [done|]. intros ->. by rewrite Hi in Hk.
Qed.

Lemma selected_keeps_object w idx a w1 b g :
  get_figure idx w = (Ok a, w1) →
  heap w !! b = Some g → heap w1 !! b = Some g.
Proof.
  intros Hget Hb.
  destruct (get_figure_ok_inv _ _ _ _ Hget) as [i [[Hi ->]|(Hi & -> & ->)]]; simpl;
    by apply lookup_app_l_Some.
Qed.

Lemma selected_heap w idx a w1 :
  get_figure idx w = (Ok a, w1) → heap w1 = heap w ++ [fresh_GnuPlot].
Proof.
  intros Hget.
  by destruct (get_figure_ok_inv _ _ _ _ Hget) as [i [[Hi ->]|(Hi & -> & ->)]].
Qed.

Lemma exec_keeps_binding w op k a :
  wf w → instances (fl w) !! k = Some a → instances (fl (exec op w)) !! k = Some a.
Proof.
  intros Hwf Hk.
  destruct (exec_shape w op Hwf)
    as (w1 & g & texts & fs' & Hsel & _ & _ & -> & _). simpl.
  destruct Hsel as [[-> _]|[(idx & b & Hget) _]]; [done|].
  by eapply selected_keeps_binding.
Qed.

Lemma exec_keeps_object w op a g :
  wf w → heap w !! a = Some g →
  ∃ g', heap (exec op w) !! a = Some g'
        ∧ term g' = term g
        ∧ stdin (proc g) `prefix_of` stdin (proc g').
Proof.
  intros Hwf Ha.
  destruct (exec_shape w op Hwf)
    as (w1 & g1 & texts & fs' & Hsel & _ & Hg1 & -> & _). simpl.
  assert (Ha1 : heap w1 !! a = Some g).
  { destruct Hsel as [[-> _]|[(idx & b & Hget) _]]; [done|].
    by eapply selected_keeps_object. }
  destruct (decide (a = current_fig (fl w1))) as [->|Hne].
  - exists (printed g1 texts).
    rewrite list_lookup_insert_eq by (by eapply lookup_lt_Some).
    pose proof (eq_trans (eq_sym Ha1) Hg1) as [= ->].
    split; [done|]. split; [done|]. simpl. by apply prefix_app_r.
  - exists g. by rewrite list_lookup_insert_ne.
Qed.

(** ** The registry over time *)

(** X1.  [get_figure()] on a registry whose highest key is [m] binds the
    id [m + 1]: that id was free, it is bound to the handle returned, it is
    the current id, and it is the highest key afterwards. *)
Theorem get_figure_None_takes_next_id w m :
  py_max (instances (fl w)) = Ok m →
  ∃ a w', get_figure None w = (Ok a, w')
          ∧ is_Some (instances (fl w) !! m)
          ∧ (∀ k, is_Some (instances (fl w) !! k) → (k ≤ m)%Z)
          ∧ instances (fl w) !! (m + 1)%Z = None
          ∧ instances (fl w') = <[(m + 1)%Z := a]> (instances (fl w))
          ∧ current_idx (fl w') = (m + 1)%Z
          ∧ py_max (instances (fl w')) = Ok (m + 1)%Z.
Proof.
  intros Hm. destruct (py_max_spec _ _ Hm) as [Hkey Hub].
  do 2 eexists. split; [by apply get_figure_next|]. simpl.
  split; [done|]. split; [done|]. split; [by apply py_max_fresh|].
  split; [done|]. split; [done|]. by apply py_max_insert_next.
Qed.

Lemma get_figure_None_takes_next_id_witness :
  py_max (instances (fl (startup ∅))) = Ok 0%Z
  ∧ ∃ a w', get_figure None (startup ∅) = (Ok a, w')
            ∧ is_Some (instances (fl (startup ∅)) !! 0%Z)
            ∧ (∀ k, is_Some (instances (fl (startup ∅)) !! k) → (k ≤ 0)%Z)
            ∧ instances (fl (startup ∅)) !! (0 + 1)%Z = None
            ∧ instances (fl w') = <[(0 + 1)%Z := a]> (instances (fl (startup ∅)))
            ∧ current_idx (fl w') = (0 + 1)%Z
            ∧ py_max (instances (fl w')) = Ok (0 + 1)%Z.
Proof.
  split; [reflexivity|].
  apply (get_figure_None_takes_next_id (startup ∅) 0%Z). reflexivity.
Defined.

(** X2.  [figure(number)] raises in one case only: no argument, on a
    registry without a key.  The exception is [ValueError], and by then no
    process has been started and nothing has been sent.  In every other
    case it returns its argument. *)
Theorem figure_raises_only_on_empty w number :
  wf w →
  match figure number w with
  | (Ok r, w') =>
      r = number ∧ ¬ (number = None ∧ instances (fl w) = ∅)
      ∧ length (heap w') = S (length (heap w))
  | (Raise e, w') =>
      e = ValueError ∧ number = None ∧ instances (fl w) = ∅ ∧ w' = w
  end.
Proof.
  intros Hwf.
  destruct (get_figure number w) as [[a|e] w1] eqn:Hget.
  - destruct (get_figure_in_heap _ _ _ _ Hwf Hget) as [g Hg].
    rewrite (figure_run _ _ _ _ _ Hget Hg). simpl.
    split; [done|]. split.
    + intros [-> Hempty]. by rewrite (get_figure_empty _ Hempty) in Hget.
    + rewrite length_insert, (selected_heap _ _ _ _ Hget), length_app. simpl. lia.
  - rewrite (figure_raise _ _ _ _ Hget).
    by apply (get_figure_raise_inv _ _ _ _ Hget).
Qed.

Lemma figure_raises_only_on_empty_witness :
  wf (mkWorld [fresh_GnuPlot] (mk_FigureList ∅ 0 0) ∅)
  ∧ match figure None (mkWorld [fresh_GnuPlot] (mk_FigureList ∅ 0 0) ∅) with
    | (Ok r, w') =>
        r = None
        ∧ ¬ (@None Z = None
             ∧ instances (fl (mkWorld [fresh_GnuPlot] (mk_FigureList ∅ 0 0) ∅)) = ∅)
        ∧ length (heap w')
          = S (length (heap (mkWorld [fresh_GnuPlot] (mk_FigureList ∅ 0 0) ∅)))
    | (Raise e, w') =>
        e = ValueError ∧ @None Z = None
        ∧ instances (fl (mkWorld [fresh_GnuPlot] (mk_FigureList ∅ 0 0) ∅)) = ∅
        ∧ w' = mkWorld [fresh_GnuPlot] (mk_FigureList ∅ 0 0) ∅
    end.
Proof.
  assert (Hwf : wf (mkWorld [fresh_GnuPlot] (mk_FigureList ∅ 0 0) ∅)) by compute_done.
  split; [exact Hwf|].
  apply (figure_raises_only_on_empty _ None Hwf).
Defined.

Lemma exec_keeps_sync w op :
  wf w →
  instances (fl w) !! current_idx (fl w) = Some (current_fig (fl w)) →
  instances (fl (exec op w)) !! current_idx (fl (exec op w))
  = Some (current_fig (fl (exec op w))).
Proof.
  intros Hwf Hsync.
  destruct (exec_shape w op Hwf)
    as (w1 & g & texts & fs' & Hsel & _ & _ & -> & _). simpl.
  destruct Hsel as [[-> _]|[(idx & a & Hget) _]]; [done|].
  by destruct (get_figure_current _ _ _ _ Hget) as (-> & ? & _).
Qed.

(** X3.  In every world that the public calls lead to from startup, and
    not only right after a selection, [current_fig] is the handle that
    [instances] holds under [current_idx]. *)
Theorem current_figure_in_sync fs w :
  reachable fs w →
  instances (fl w) !! current_idx (fl w) = Some (current_fig (fl w)).
Proof.
  induction 1 as [|w op Hr IH]; [done|].
  apply exec_keeps_sync; [by eapply reachable_wf|done].
Qed.

Lemma current_figure_in_sync_witness :
  reachable ∅ (exec (CallC "replot") (exec (CallGetFigure (Some 3%Z)) (startup ∅)))
  ∧ instances (fl (exec (CallC "replot") (exec (CallGetFigure (Some 3%Z)) (startup ∅))))
      !! current_idx (fl (exec (CallC "replot")
                            (exec (CallGetFigure (Some 3%Z)) (startup ∅))))
    = Some (current_fig (fl (exec (CallC "replot")
                               (exec (CallGetFigure (Some 3%Z)) (startup ∅))))).
Proof.
  assert (Hr : reachable ∅
    (exec (CallC "replot") (exec (CallGetFigure (Some 3%Z)) (startup ∅)))).
  { do 2 apply reachable_call. apply reachable_startup. }
  split; [exact Hr|].
  apply (current_figure_in_sync ∅ _ Hr).
Defined.

(** X4.  No sequence of public calls removes a key from the registry or
    binds it to another handle. *)
Theorem bindings_are_permanent ops : ∀ w k a,
  wf w →
  instances (fl w) !! k = Some a →
  instances (fl (exec_all ops w)) !! k = Some a.
Proof.
  induction ops as [|op ops IH]; intros w k a Hwf Hk; simpl; [done|].
  apply IH; [by apply wf_exec|by apply exec_keeps_binding].
Qed.

Lemma bindings_are_permanent_witness :
  wf (startup ∅)
  ∧ instances (fl (startup ∅)) !! 0%Z = Some 0
  ∧ instances (fl (exec_all [CallFigure None; CallFigure (Some 0%Z); CallC "replot"]
                     (startup ∅))) !! 0%Z = Some 0.
Proof.
  assert (Hwf : wf (startup ∅)) by compute_done.
  split; [exact Hwf|]. split; [reflexivity|].
  apply (bindings_are_permanent
           [CallFigure None; CallFigure (Some 0%Z); CallC "replot"]
           (startup ∅) 0%Z 0 Hwf).
  reflexivity.
Defined.

(** X5.  No sequence of public calls removes an object, changes its
    terminal, or takes back what was printed to its pipe: the pipe after is
    the pipe before with more at the end. *)
Theorem pipes_only_grow ops : ∀ w a g,
  wf w →
  heap w !! a = Some g →
  ∃ g', heap (exec_all ops w) !! a = Some g'
        ∧ term g' = term g
        ∧ stdin (proc g) `prefix_of` stdin (proc g').
Proof.
  induction ops as [|op ops IH]; intros w a g Hwf Ha; simpl.
  - by exists g.
  - destruct (exec_keeps_object w op a g Hwf Ha) as (g1 & Ha1 & Ht1 & Hp1).
    destruct (IH _ _ _ (wf_exec _ op Hwf) Ha1) as (g' & Ha' & Ht' & Hp').
    exists g'. split; [done|]. split; [congruence|]. by etrans.
Qed.

Lemma pipes_only_grow_witness :
  wf (startup ∅)
  ∧ heap (startup ∅) !! 0 = Some fresh_GnuPlot
  ∧ ∃ g', heap (exec_all [CallC "plot sin(x)"; CallFigure None] (startup ∅)) !! 0
          = Some g'
          ∧ term g' = term fresh_GnuPlot
          ∧ stdin (proc fresh_GnuPlot) `prefix_of` stdin (proc g').
Proof.
  assert (Hwf : wf (startup ∅)) by compute_done.
  split; [exact Hwf|]. split; [reflexivity|].
  apply (pipes_only_grow [CallC "plot sin(x)"; CallFigure None]
           (startup ∅) 0 fresh_GnuPlot Hwf).
  reflexivity.
Defined.

Lemma exec_keeps_distinct w op :
  wf w →
  (∀ k1 k2 a, instances (fl w) !! k1 = Some a →
              instances (fl w) !! k2 = Some a → k1 = k2) →
  ∀ k1 k2 a, instances (fl (exec op w)) !! k1 = Some a →
             instances (fl (exec op w)) !! k2 = Some a → k1 = k2.
Proof.
  intros Hwf Hinj.
  destruct (exec_shape w op Hwf)
    as (w1 & g & texts & fs' & Hsel & _ & _ & -> & _). simpl.
  destruct Hsel as [[-> _]|[(idx & b & Hget) _]]; [done|].
  destruct (get_figure_ok_inv _ _ _ _ Hget) as [i [[Hi ->]|(Hi & -> & ->)]];
    simpl; [done|].
  destruct Hwf as [Hall _].
  assert (Hold : ∀ k a, instances (fl w) !! k = Some a → a ≠ length (heap w)).
  { intros k a Hk. specialize (Hall k a Hk). simpl in Hall. lia. }
  intros k1 k2 a.
  destruct (decide (k1 = i)) as [->|H1], (decide (k2 = i)) as [->|H2];
    rewrite ?lookup_insert_eq, ?lookup_insert_ne by congruence.
  - done.
  - intros [= <-] Hk. by destruct (Hold _ _ Hk).
  - intros Hk [= <-]. by destruct (Hold _ _ Hk).
  - apply Hinj.
Qed.

(** X6.  In every world that the public calls lead to from startup, two
    different ids are bound to two different handles: no two figures share
    a gnuplot process. *)
Theorem distinct_ids_distinct_handles fs w k1 k2 a :
  reachable fs w →
  instances (fl w) !! k1 = Some a →
  instances (fl w) !! k2 = Some a →
  k1 = k2.
Proof.
  intros Hr. revert k1 k2 a. induction Hr as [|w op Hr IH].
  - intros k1 k2 a. simpl.
    by intros [<- _]%lookup_singleton_Some [<- _]%lookup_singleton_Some.
  - apply exec_keeps_distinct; [by eapply reachable_wf|done].
Qed.

Lemma distinct_ids_distinct_handles_witness :
  reachable ∅ (exec (CallFigure (Some 7%Z)) (startup ∅))
  ∧ instances (fl (exec (CallFigure (Some 7%Z)) (startup ∅))) !! 7%Z = Some 1
  ∧ instances (fl (exec (CallFigure (Some 7%Z)) (startup ∅))) !! 7%Z = Some 1
  ∧ 7%Z = 7%Z.
Proof.
  assert (Hr : reachable ∅ (exec (CallFigure (Some 7%Z)) (startup ∅))).
  { apply reachable_call, reachable_startup. }
  split; [exact Hr|]. split; [reflexivity|]. split; [reflexivity|].
  apply (distinct_ids_distinct_handles ∅ _ 7%Z 7%Z 1 Hr); reflexivity.
Defined.

Lemma exec_keeps_idle w op :
  wf w →
  instances (fl w) !! current_idx (fl w) = Some (current_fig (fl w)) →
  (∀ a g, heap w !! a = Some g → ¬ referenced w a → stdin (proc g) = []) →
  ∀ a g, heap (exec op w) !! a = Some g → ¬ referenced (exec op w) a →
         stdin (proc g) = [].
Proof.
  intros Hwf Hsync Hidle a g.
  destruct (exec_shape w op Hwf)
    as (w1 & g1 & texts & fs' & Hsel & _ & Hg1 & -> & _).
  unfold referenced. simpl. intros Ha Hnot.
  assert (Hsync1 : instances (fl w1) !! current_idx (fl w1) = Some (current_fig (fl w1))).
  { destruct Hsel as [[-> _]|[(idx & b & Hget) _]]; [done|].
    by destruct (get_figure_current _ _ _ _ Hget) as (-> & ? & _). }
  assert (Hne : current_fig (fl w1) ≠ a).
  { intros <-. apply Hnot. by eexists. }
  rewrite list_lookup_insert_ne in Ha by done.
  destruct Hsel as [[-> _]|[(idx & b & Hget) _]]; [by eapply Hidle|].
  rewrite (selected_heap _ _ _ _ Hget) in Ha.
  apply lookup_app_Some in Ha as [Ha|[_ Ha]].
  - apply (Hidle _ _ Ha). intros [k Hk]. apply Hnot. exists k.
    by eapply selected_keeps_binding.
  - apply list_lookup_singleton_Some in Ha as [_ <-]. done.
Qed.

(** X7.  In every world that the public calls lead to from startup, an
    object that no id is bound to (as the one [get_figure] constructs and
    drops when the id is taken) has an empty pipe: its process was started
    and has never been sent anything. *)
Theorem unreferenced_handles_idle fs w a g :
  reachable fs w →
  heap w !! a = Some g →
  ¬ referenced w a →
  stdin (proc g) = [].
Proof.
  intros Hr. revert a g.
  cut (instances (fl w) !! current_idx (fl w) = Some (current_fig (fl w))
       ∧ ∀ a g, heap w !! a = Some g → ¬ referenced w a → stdin (proc g) = []).
  { by intros [_ ?]. }
  induction Hr as [|w op Hr [IHsync IHidle]].
  - split; [done|]. intros a g. simpl. intros Ha Hnot.
    apply list_lookup_singleton_Some in Ha as [-> <-].
    destruct Hnot. exists 0%Z. simpl. by rewrite lookup_singleton_eq.
  - pose proof (reachable_wf _ _ Hr) as Hwf.
    split; [by apply exec_keeps_sync|by apply exec_keeps_idle].
Qed.

Lemma unreferenced_handles_idle_witness :
  reachable ∅ (exec (CallGetFigure (Some 0%Z)) (startup ∅))
  ∧ heap (exec (CallGetFigure (Some 0%Z)) (startup ∅)) !! 1 = Some fresh_GnuPlot
  ∧ ¬ referenced (exec (CallGetFigure (Some 0%Z)) (startup ∅)) 1
  ∧ stdin (proc fresh_GnuPlot) = [].
Proof.
  assert (Hr : reachable ∅ (exec (CallGetFigure (Some 0%Z)) (startup ∅))).
  { apply reachable_call, reachable_startup. }
  assert (Hnot : ¬ referenced (exec (CallGetFigure (Some 0%Z)) (startup ∅)) 1).
  { intros [k Hk].
    change (({[ 0%Z := 0 ]} : gmap Z addr) !! k = Some 1) in Hk.
    apply lookup_singleton_Some in Hk as [_ Hk]. discriminate Hk. }
  split; [exact Hr|]. split; [reflexivity|]. split; [exact Hnot|].
  apply (unreferenced_handles_idle ∅ _ 1 fresh_GnuPlot Hr); [reflexivity|exact Hnot].
Defined.

(** X8.  In every world that the public calls lead to from startup,
    [figure(number)] returns its argument, and the one text it sends to the
    figure it selected is [set term x11 ] followed by [number] as [str]
    prints it: every figure has the default terminal, for nothing in the
    module constructs a [_GnuPlot] with another one. *)
Theorem figure_sends_x11 fs w number :
  reachable fs w →
  ∃ a w1 g,
    get_figure number w = (Ok a, w1)
    ∧ heap w1 !! a = Some g
    ∧ term g = "x11"
    ∧ figure number w
      = (Ok number,
         set_heap
           (<[a := printed g [("set term x11 " +:+ str_opt_int number) +:+ newline]]>
              (heap w1)) w1).
Proof.
  intros Hr. pose proof (reachable_wf _ _ Hr) as Hwf.
  destruct (get_figure_returns w number) as (a & w1 & Hget).
  { intros _ Hempty. destruct (reachable_has_zero _ _ Hr) as [b Hb].
    by rewrite Hempty, lookup_empty in Hb. }
  destruct (get_figure_in_heap _ _ _ _ Hwf Hget) as [g Hg].
  assert (Hterm : term g = "x11").
  { pose proof (reachable_default_terms _ _ (reachable_call _ _ (CallGetFigure number) Hr))
      as Hall.
    simpl in Hall. rewrite Hget in Hall.
    apply (Forall_lookup_1 _ _ _ _ Hall Hg). }
  exists a, w1, g. split; [done|]. split; [done|]. split; [done|].
  rewrite (figure_run _ _ _ _ _ Hget Hg). unfold set_term_command.
  by rewrite Hterm.
Qed.

Lemma figure_sends_x11_witness :
  reachable ∅ (exec (CallFigure None) (startup ∅))
  ∧ ∃ a w1 g,
      get_figure (Some 1%Z) (exec (CallFigure None) (startup ∅)) = (Ok a, w1)
      ∧ heap w1 !! a = Some g
      ∧ term g = "x11"
      ∧ figure (Some 1%Z) (exec (CallFigure None) (startup ∅))
        = (Ok (Some 1%Z),
           set_heap
             (<[a := printed g [("set term x11 " +:+ str_opt_int (Some 1%Z))
                                 +:+ newline]]> (heap w1)) w1).
Proof.
  assert (Hr : reachable ∅ (exec (CallFigure None) (startup ∅))).
  { apply reachable_call, reachable_startup. }
  split; [exact Hr|].
  apply (figure_sends_x11 ∅ _ (Some 1%Z) Hr).
Defined.

(** X9.  What is sent after a selection goes to the figure selected:
    after [get_figure(k)], a [c(command)] prints [command] and a newline to
    the pipe of the handle bound to [k], and to no other pipe. *)
Theorem select_then_dispatch w k command :
  wf w →
  ∃ a w1 g w2,
    get_figure (Some k) w = (Ok a, w1)
    ∧ instances (fl w1) !! k = Some a
    ∧ heap w1 !! a = Some g
    ∧ (get_figure (Some k) ;; c command) w = (Ok tt, w2)
    ∧ heap w2 !! a = Some (printed g [command +:+ newline])
    ∧ (∀ b, b ≠ a → heap w2 !! b = heap w1 !! b)
    ∧ fl w2 = fl w1.
Proof.
  intros Hwf.
  destruct (get_figure_returns w (Some k)) as (a & w1 & Hget); [done|].
  destruct (get_figure_in_heap _ _ _ _ Hwf Hget) as [g Hg].
  destruct (get_figure_current _ _ _ _ Hget) as (Hcur & Hsync & _).
  pose proof (get_figure_Some_idx _ _ _ _ Hget) as Hidx.
  exists a, w1, g. eexists.
  split; [done|]. split; [by rewrite <-Hidx|]. split; [done|].
  split.
  { unfold mbind, M_bind, bind. rewrite Hget.
    apply c_run. by rewrite Hcur. }
  simpl. rewrite Hcur.
  split; [by apply list_lookup_insert_eq; eapply lookup_lt_Some|].
  split; [|done]. intros b Hb. by apply list_lookup_insert_ne.
Qed.

Lemma select_then_dispatch_witness :
  wf (startup ∅)
  ∧ ∃ a w1 g w2,
      get_figure (Some 2%Z) (startup ∅) = (Ok a, w1)
      ∧ instances (fl w1) !! 2%Z = Some a
      ∧ heap w1 !! a = Some g
      ∧ (get_figure (Some 2%Z) ;; c "replot") (startup ∅) = (Ok tt, w2)
      ∧ heap w2 !! a = Some (printed g ["replot" +:+ newline])
      ∧ (∀ b, b ≠ a → heap w2 !! b = heap w1 !! b)
      ∧ fl w2 = fl w1.
Proof.
  assert (Hwf : wf (startup ∅)) by compute_done.
  split; [exact Hwf|].
  apply (select_then_dispatch (startup ∅) 2%Z "replot" Hwf).
Defined.

(** X10.  A call starts one gnuplot process when it goes through
    [get_figure] and [max] does not raise, whether the id was bound or not,
    and none otherwise; the registry gains at most one key. *)
Theorem processes_started w op :
  wf w →
  length (heap (exec op w)) = length (heap w) + started op w
  ∧ size (instances (fl (exec op w))) ≤ size (instances (fl w)) + started op w.
Proof.
  intros Hwf.
  destruct (exec_shape w op Hwf)
    as (w1 & g & texts & fs' & Hsel & _ & _ & -> & _). simpl.
  rewrite length_insert.
  destruct Hsel as [[-> ->]|[(idx & b & Hget) [-> _]]]; [lia|].
  rewrite (selected_heap _ _ _ _ Hget), length_app. simpl. split; [lia|].
  destruct (get_figure_ok_inv _ _ _ _ Hget) as [i [[Hi ->]|(Hi & -> & ->)]]; simpl.
  - lia.
  - rewrite map_size_insert_None by done. lia.
Qed.

Lemma processes_started_witness :
  wf (startup ∅)
  ∧ length (heap (exec (CallFigure (Some 0%Z)) (startup ∅)))
    = length (heap (startup ∅)) + started (CallFigure (Some 0%Z)) (startup ∅)
  ∧ size (instances (fl (exec (CallFigure (Some 0%Z)) (startup ∅))))
    ≤ size (instances (fl (startup ∅))) + started (CallFigure (Some 0%Z)) (startup ∅).
Proof.
  assert (Hwf : wf (startup ∅)) by compute_done.
  split; [exact Hwf|].
  apply (processes_started (startup ∅) (CallFigure (Some 0%Z)) Hwf).
Defined.



(** ** Data files *)

(** X12.  [s] writes over what the file held: writing [data2] after
    [data1] under one name leaves the same world as writing [data2] alone. *)
Theorem s_overwrites data1 data2 filename w :
  (s data1 filename ;; s data2 filename) w = s data2 filename w.
Proof.
  unfold mbind, M_bind, bind. rewrite !s_run. unfold set_files. simpl.
  by rewrite insert_insert_eq.
Qed.



Lemma foldr_min_le (n : nat) ls : foldr Nat.min n ls ≤ n.
Proof. induction ls as [|x ls IH]; simpl; lia. Qed.

Lemma foldr_min_le_elem (n : nat) ls x : x ∈ ls → foldr Nat.min n ls ≤ x.
Proof.
  induction ls as [|y ls IH]; simpl.
  - by intros ?%elem_of_nil.
  - intros [->|Hx]%elem_of_cons; [lia|]. specialize (IH Hx). lia.
Qed.

Lemma foldr_min_attained (n : nat) ls :
  foldr Nat.min n ls = n ∨ foldr Nat.min n ls ∈ ls.
Proof.
  induction ls as [|y ls IH]; simpl; [by left|].
  destruct (Nat.min_spec y (foldr Nat.min n ls)) as [[_ ->]|[_ ->]].
  - right. apply list_elem_of_here.
  - destruct IH as [IH|IH]; [by left|]. right. by apply list_elem_of_further.
Qed.

Section zip_general.
Context {A : Type}.
Implicit Types (fuel row : list A) (data : list (list A)).

Lemma heads_cons (l : list A) data :
  heads (l :: data)
  = match l with
    | [] => None
    | x :: _ => (x ::.) <$> heads data
    end.
Proof. unfold heads. simpl. destruct l as [|x l]; [done|]. simpl. by destruct (mapM head data). Qed.

Lemma foldr_min_heads n data :
  match heads data with
  | Some _ =>
      foldr Nat.min (S n) (length <$> data)
      = S (foldr Nat.min n (length <$> tails data))
  | None => foldr Nat.min (S n) (length <$> data) = 0
  end.
Proof.
  induction data as [|l data IH]; [done|].
  rewrite heads_cons. destruct l as [|x l]; [done|].
  unfold tails in *. rewrite !fmap_cons. cbn [foldr length tail].
  destruct (heads data) as [row|]; cbn [fmap option_fmap option_map];
    rewrite IH; lia.
Qed.

Lemma zip_rows_length_min fuel : ∀ data,
  length (zip_rows fuel data) = foldr Nat.min (length fuel) (length <$> data).
Proof.
  induction fuel as [|x fuel IH]; intros data; simpl.
  - pose proof (foldr_min_le 0 (length <$> data)). lia.
  - pose proof (foldr_min_heads (length fuel) data) as Hh.
    destruct (heads data) as [row|]; simpl; [|done].
    by rewrite IH, Hh.
Qed.

Lemma zip_rows_row fuel : ∀ data i row,
  zip_rows fuel data !! i = Some row → mapM (λ l, l !! i) data = Some row.
Proof.
  induction fuel as [|x fuel IH]; intros data i row; simpl; [done|].
  destruct (heads data) as [r|] eqn:Hr; [|done].
  destruct i as [|j]; simpl.
  - intros [= <-]. rewrite <-Hr. symmetry. apply mapM_ext, head_lookup.
  - intros Hj. rewrite <-(IH _ _ _ Hj). symmetry.
    apply Forall2_mapM_ext, Forall2_fmap_l, Forall_Forall2_diag.
    apply Forall_true. intros l. apply lookup_tail.
Qed.
End zip_general.

(** X14.  The number of rows [s] writes is the length of the shortest
    sequence of [data]: no sequence is shorter than the number of rows,
    and one is exactly that long.  What longer sequences hold beyond that
    is dropped without an error. *)
Theorem zip_star_shortest (data : list (list Z)) :
  data ≠ [] →
  (∀ l, l ∈ data → length (zip_star data) ≤ length l)
  ∧ (∃ l, l ∈ data ∧ length l = length (zip_star data)).
Proof.
  destruct data as [|first rest]; [done|]. intros _.
  unfold zip_star. rewrite zip_rows_length_min.
  split.
  - intros l Hl. apply foldr_min_le_elem. by apply list_elem_of_fmap_2.
  - destruct (foldr_min_attained (length first) (length <$> first :: rest))
      as [->|Hin].
    + exists first. split; [apply list_elem_of_here|done].
    + apply list_elem_of_fmap in Hin as (l & Hlen & Hl). by exists l.
Qed.

Lemma zip_star_shortest_witness :
  [[1; 2; 3]; [4; 5]; [6; 7; 8; 9]]%Z ≠ []
  ∧ (∀ l, l ∈ [[1; 2; 3]; [4; 5]; [6; 7; 8; 9]]%Z →
       length (zip_star [[1; 2; 3]; [4; 5]; [6; 7; 8; 9]]%Z) ≤ length l)
  ∧ (∃ l, l ∈ [[1; 2; 3]; [4; 5]; [6; 7; 8; 9]]%Z
          ∧ length l = length (zip_star [[1; 2; 3]; [4; 5]; [6; 7; 8; 9]]%Z)).
Proof.
  assert (Hne : [[1; 2; 3]; [4; 5]; [6; 7; 8; 9]]%Z ≠ []) by discriminate.
  split; [exact Hne|].
  apply (zip_star_shortest [[1; 2; 3]; [4; 5]; [6; 7; 8; 9]]%Z Hne).
Defined.

(** X15.  Row [i] of what [s] writes holds item [i] of every sequence of
    [data], in the order of the sequences; so every row has as many items
    as [data] has sequences. *)
Theorem zip_star_row (data : list (list Z)) i row :
  zip_star data !! i = Some row →
  Forall2 (λ l x, l !! i = Some x) data row
  ∧ length row = length data.
Proof.
  intros Hi.
  assert (Hrow : mapM (λ l, l !! i) data = Some row).
  { destruct data as [|first rest]; [done|]. by eapply zip_rows_row. }
  split; [by apply mapM_Some_1|]. symmetry. by eapply length_mapM.
Qed.

Lemma zip_star_row_witness :
  zip_star [[1; 2; 3]; [4; 5]]%Z !! 1 = Some [2; 5]%Z
  ∧ Forall2 (λ l x, l !! 1 = Some x) [[1; 2; 3]; [4; 5]]%Z [2; 5]%Z
  ∧ length [2; 5]%Z = length [[1; 2; 3]; [4; 5]]%Z.
Proof.
  split; [reflexivity|].
  apply (zip_star_row [[1; 2; 3]; [4; 5]]%Z 1 [2; 5]%Z). reflexivity.
Defined.

(** X16.  [s] on no sequence at all, or on sequences one of which is
    empty, leaves an empty file: the file is created or emptied, and no
    row is written. *)
Theorem s_without_rows data filename w :
  data = [] ∨ [] ∈ data →
  s data filename w = (Ok tt, set_files (<[filename := ""]> (files w)) w).
Proof.
  intros Hdata. rewrite s_run.
  assert (Hnil : zip_star data = []).
  { destruct Hdata as [->|Hin]; [done|].
    destruct data as [|first rest]; [done|].
    apply length_zero_iff_nil. unfold zip_star. rewrite zip_rows_length_min.
    pose proof (foldr_min_le_elem (length first) (length <$> first :: rest) 0) as Hle.
    assert (0 ∈ length <$> first :: rest) as Hin0.
    { by apply (list_elem_of_fmap_2 length) in Hin. }
    specialize (Hle Hin0). lia. }
  by rewrite Hnil.
Qed.

Lemma s_without_rows_witness :
  ([[1; 2; 3]; []]%Z = [] ∨ [] ∈ [[1; 2; 3]; []]%Z)
  ∧ s [[1; 2; 3]; []]%Z "tmp.dat" (startup {[ "tmp.dat" := "old" ]})
    = (Ok tt,
       set_files (<["tmp.dat" := ""]> (files (startup {[ "tmp.dat" := "old" ]})))
         (startup {[ "tmp.dat" := "old" ]})).
Proof.
  assert (Hin : [[1; 2; 3]; []]%Z = [] ∨ [] ∈ [[1; 2; 3]; []]%Z).
  { right. apply list_elem_of_further, list_elem_of_here. }
  split; [exact Hin|].
  apply (s_without_rows [[1; 2; 3]; []]%Z "tmp.dat" (startup {[ "tmp.dat" := "old" ]}) Hin).
Defined.

(** ** Reading a data file back *)

Lemma no_char_append ch a b : no_char ch (a +:+ b) ↔ no_char ch a ∧ no_char ch b.
Proof.
  induction a as [|x a IH]; [simpl; tauto|].
  change (x ≠ ch ∧ no_char ch (a +:+ b) ↔ (x ≠ ch ∧ no_char ch a) ∧ no_char ch b).
  tauto.
Qed.

Lemma pretty_N_go_no_char ch x : ∀ text,
  (∀ d, pretty_N_char d ≠ ch) → no_char ch text → no_char ch (pretty_N_go x text).
Proof.
  induction (N.lt_wf_0 x) as [x _ IH]; intros text Hdigit Htext.
  destruct (decide (x = 0%N)) as [->|Hx]; [by rewrite pretty_N_go_0|].
  rewrite pretty_N_go_step by lia.
  apply IH; [apply N.div_lt; lia|done|]. split; [apply Hdigit|done].
Qed.

Lemma pretty_N_go_nonempty x ch text : pretty_N_go x (String ch text) ≠ "".
Proof.
  revert ch text. induction (N.lt_wf_0 x) as [x _ IH]; intros ch text.
  destruct (decide (x = 0%N)) as [->|Hx]; [by rewrite pretty_N_go_0|].
  rewrite pretty_N_go_step by lia. apply IH, N.div_lt; lia.
Qed.

Lemma pretty_N_char_layout d :
  pretty_N_char d ≠ Ascii.ascii_of_nat 10 ∧ pretty_N_char d ≠ Ascii.ascii_of_nat 32.
Proof. unfold pretty_N_char. by repeat case_match. Qed.

(** A number prints without a newline and without a space. *)
Lemma str_int_no_char ch z :
  ch = Ascii.ascii_of_nat 10 ∨ ch = Ascii.ascii_of_nat 32 → no_char ch (str_int z).
Proof.
  intros Hch.
  assert (Hdigit : ∀ d, pretty_N_char d ≠ ch).
  { intros d. destruct (pretty_N_char_layout d). by destruct Hch as [->| ->]. }
  assert (Hpos : ∀ q : positive, no_char ch (pretty q)).
  { intros q. unfold pretty, pretty_positive, pretty, pretty_N.
    case_decide; [done|]. by apply pretty_N_go_no_char. }
  unfold str_int, pretty, pretty_Z. destruct z as [|q|q]; [| |].
  - destruct Hch as [->| ->]; by split.
  - apply Hpos.
  - apply no_char_append. split; [|apply Hpos].
    destruct Hch as [->| ->]; by split.
Qed.

(** A number prints as some text. *)
Lemma str_int_nonempty z : str_int z ≠ "".
Proof.
  assert (Hpos : ∀ q : positive, pretty q ≠ "").
  { intros q. unfold pretty, pretty_positive, pretty, pretty_N.
    case_decide; [done|]. rewrite pretty_N_go_step by lia.
    apply pretty_N_go_nonempty. }
  unfold str_int, pretty, pretty_Z. destruct z as [|q|q]; [done|apply Hpos|done].
Qed.

Lemma row_line_no_newline row : no_char (Ascii.ascii_of_nat 10) (row_line row).
Proof.
  unfold row_line. induction row as [|z row IH]; [done|].
  destruct row as [|z' row]; [apply str_int_no_char; by left|].
  change (no_char (Ascii.ascii_of_nat 10)
            (str_int z +:+ " " +:+ join " " (str_int <$> z' :: row))).
  rewrite !no_char_append. split; [apply str_int_no_char; by left|].
  split; [by split|done].
Qed.

Lemma lines_from_line text : ∀ cur rest,
  no_char (Ascii.ascii_of_nat 10) text →
  lines_from cur (text +:+ newline +:+ rest) = (cur +:+ text) :: lines_from "" rest.
Proof.
  induction text as [|ch text IH]; intros cur rest Hno.
  - simpl. by rewrite append_empty_r.
  - destruct Hno as [Hch Hno].
    change (lines_from cur (String ch (text +:+ newline +:+ rest))
            = (cur +:+ String ch text) :: lines_from "" rest).
    simpl. rewrite decide_False by done. rewrite IH by done.
    f_equal. by rewrite <-append_assoc.
Qed.

Lemma lines_rows_text rows : lines (rows_text rows) = row_line <$> rows.
Proof.
  unfold lines. induction rows as [|row rows IH]; [done|].
  change (lines_from "" ((row_line row +:+ newline) +:+ rows_text rows)
          = row_line row :: (row_line <$> rows)).
  rewrite <-append_assoc, lines_from_line by apply row_line_no_newline.
  by rewrite IH.
Qed.

(** X17.  The file [s] leaves reads back line by line as the rows it
    wrote: line [i] is row [i] of the zipped data, its numbers printed in
    decimal with one space between them, and there are as many lines as
    rows. *)
Theorem s_file_reads_back data filename w :
  ∃ text,
    files (s data filename w).2 !! filename = Some text
    ∧ lines text = row_line <$> zip_star data
    ∧ length (lines text) = length (zip_star data).
Proof.
  exists (rows_text (zip_star data)). rewrite s_run. simpl.
  split; [by rewrite lookup_insert_eq|].
  rewrite lines_rows_text. split; [done|]. by rewrite length_fmap.
Qed.

(** Two texts that agree once each is followed by an end of column (the
    end of the line, or a space and more) agree column by column. *)
Lemma column_split a : ∀ b ta tb,
  no_char (Ascii.ascii_of_nat 32) a → no_char (Ascii.ascii_of_nat 32) b →
  (ta = "" ∨ ∃ r, ta = " " +:+ r) → (tb = "" ∨ ∃ r, tb = " " +:+ r) →
  a +:+ ta = b +:+ tb → a = b ∧ ta = tb.
Proof.
  induction a as [|x a IH]; intros b ta tb Ha Hb Hta Htb Heq.
  - destruct b as [|y b]; [done|]. simpl in Heq. destruct Hb as [Hy _].
    destruct Hta as [->|[r ->]]; [done|]. by injection Heq as <- _.
  - destruct Ha as [Hx Ha]. destruct b as [|y b].
    + simpl in Heq. destruct Htb as [->|[r ->]]; [done|]. by injection Heq as -> _.
    + destruct Hb as [Hy Hb]. injection Heq as -> Heq.
      destruct (IH _ _ _ Ha Hb Hta Htb Heq) as [-> ->]. done.
Qed.

Lemma row_line_inj row1 : ∀ row2, row_line row1 = row_line row2 → row1 = row2.
Proof.
  assert (Hcons : ∀ z row, ∃ t,
    row_line (z :: row) = str_int z +:+ t
    ∧ (t = "" ∨ ∃ r, t = " " +:+ r)
    ∧ (row = [] → t = "")
    ∧ (∀ z' row', row = z' :: row' → t = " " +:+ row_line row)).
  { intros z [|z' row].
    - exists "". unfold row_line. simpl. rewrite append_empty_r.
      split; [done|]. split; [by left|]. by split.
    - exists (" " +:+ row_line (z' :: row)).
      split; [done|]. split; [right; by eexists|]. by split. }
  induction row1 as [|z1 row1 IH]; intros [|z2 row2] Heq.
  - done.
  - destruct (Hcons z2 row2) as (t & Ht & _). rewrite Ht in Heq.
    destruct (str_int z2) eqn:E; [by destruct (str_int_nonempty z2)|done].
  - destruct (Hcons z1 row1) as (t & Ht & _). rewrite Ht in Heq.
    destruct (str_int z1) eqn:E; [by destruct (str_int_nonempty z1)|done].
  - destruct (Hcons z1 row1) as (t1 & Ht1 & Hend1 & Hnil1 & Hmore1).
    destruct (Hcons z2 row2) as (t2 & Ht2 & Hend2 & Hnil2 & Hmore2).
    rewrite Ht1, Ht2 in Heq.
    apply column_split in Heq as [Hz Ht]; [|apply str_int_no_char; by right..|done|done].
    apply (inj pretty) in Hz as <-. f_equal.
    destruct row1 as [|y1 row1], row2 as [|y2 row2].
    + done.
    + rewrite (Hnil1 eq_refl), (Hmore2 _ _ eq_refl) in Ht. done.
    + rewrite (Hmore1 _ _ eq_refl), (Hnil2 eq_refl) in Ht. done.
    + rewrite (Hmore1 _ _ eq_refl), (Hmore2 _ _ eq_refl) in Ht.
      injection Ht as Ht. by apply IH.
Qed.

(** X18.  The file tells the rows: if [s] leaves the same text for two
    data, the two zip to the same rows. *)
Theorem s_file_determines_rows data1 data2 filename1 filename2 w1 w2 :
  files (s data1 filename1 w1).2 !! filename1
  = files (s data2 filename2 w2).2 !! filename2 →
  zip_star data1 = zip_star data2.
Proof.
  rewrite !s_run. simpl. rewrite !lookup_insert_eq. intros [= Htext].
  apply (f_equal lines) in Htext. rewrite !lines_rows_text in Htext.
  revert Htext. generalize (zip_star data1), (zip_star data2).
  intros rows1. induction rows1 as [|r1 rows1 IH]; intros [|r2 rows2] Heq;
    [done|done|done|].
  injection Heq as Hrow Hrest.
  f_equal; [by apply row_line_inj|by apply IH].
Qed.

Lemma s_file_determines_rows_witness :
  files (s [[1; 2]; [3; 4]]%Z "a.dat" (startup ∅)).2 !! "a.dat"
  = files (s [[1; 2; 9]; [3; 4]]%Z "b.dat" (startup ∅)).2 !! "b.dat"
  ∧ zip_star [[1; 2]; [3; 4]]%Z = zip_star [[1; 2; 9]; [3; 4]]%Z.
Proof.
  assert (H : files (s [[1; 2]; [3; 4]]%Z "a.dat" (startup ∅)).2 !! "a.dat"
              = files (s [[1; 2; 9]; [3; 4]]%Z "b.dat" (startup ∅)).2 !! "b.dat")
    by reflexivity.
  split; [exact H|].
  apply (s_file_determines_rows [[1; 2]; [3; 4]]%Z [[1; 2; 9]; [3; 4]]%Z
           "a.dat" "b.dat" (startup ∅) (startup ∅) H).
Defined.

(** ** Commands in a row *)

Lemma for_each_c_printed w a g cmds : ∀ texts,
  current_fig (fl w) = a → a < length (heap w) →
  for_each cmds c (set_heap (<[a := printed g texts]> (heap w)) w)
  = (Ok tt,
     set_heap (<[a := printed g (texts ++ ((λ x, x +:+ newline) <$> cmds))]> (heap w)) w).
Proof.
  induction cmds as [|cmd cmds IH]; intros texts Ha Hlt; simpl.
  - by rewrite app_nil_r.
  - unfold mbind, M_bind, bind. rewrite (c_run_printed w a g texts cmd Ha Hlt).
    rewrite IH by done. by rewrite <-(assoc_L (++)).
Qed.

(** X19.  Commands sent one after the other arrive in the order sent:
    calling [c] on each of [cmds] in turn adds to the pipe of the current
    figure each command with its newline, first to last, and the bytes gone
    down the pipe are the old ones followed by these. *)
Theorem commands_arrive_in_order w cmds :
  wf w →
  ∃ g, heap w !! current_fig (fl w) = Some g
    ∧ for_each cmds c w
      = (Ok tt,
         set_heap (<[current_fig (fl w) :=
                      printed g ((λ x, x +:+ newline) <$> cmds)]> (heap w)) w)
    ∧ pipe_bytes (proc (printed g ((λ x, x +:+ newline) <$> cmds)))
      = pipe_bytes (proc g)
        +:+ foldr (λ x rest, (x +:+ newline) +:+ rest) "" cmds.
Proof.
  intros Hwf. destruct (wf_lookup _ Hwf) as [g Hg]. exists g.
  pose proof (lookup_lt_Some _ _ _ Hg) as Hlt.
  split; [done|]. split.
  - pose proof (for_each_c_printed w _ g cmds [] eq_refl Hlt) as Hrun.
    rewrite printed_nil, list_insert_id in Hrun by done.
    simpl in Hrun. rewrite <-Hrun. f_equal. by destruct w.
  - rewrite pipe_bytes_printed. f_equal.
    induction cmds as [|cmd cmds IH]; [done|].
    rewrite fmap_cons. cbn [foldr]. by rewrite IH.
Qed.

Lemma commands_arrive_in_order_witness :
  wf (startup ∅)
  ∧ ∃ g, heap (startup ∅) !! current_fig (fl (startup ∅)) = Some g
    ∧ for_each ["set grid"; "plot sin(x)"; "replot"] c (startup ∅)
      = (Ok tt,
         set_heap (<[current_fig (fl (startup ∅)) :=
                      printed g ((λ x, x +:+ newline)
                                   <$> ["set grid"; "plot sin(x)"; "replot"])]>
                     (heap (startup ∅))) (startup ∅))
    ∧ pipe_bytes (proc (printed g ((λ x, x +:+ newline)
                                     <$> ["set grid"; "plot sin(x)"; "replot"])))
      = pipe_bytes (proc g)
        +:+ foldr (λ x rest, (x +:+ newline) +:+ rest) ""
              ["set grid"; "plot sin(x)"; "replot"].
Proof.
  assert (Hwf : wf (startup ∅)) by compute_done.
  split; [exact Hwf|].
  apply (commands_arrive_in_order (startup ∅) ["set grid"; "plot sin(x)"; "replot"] Hwf).
Defined.
